(** * Subdomain enumeration pipeline of [backend/app.py]

    A shallow embedding of the certificate-transparency pipeline of the
    recon backend: candidate extraction ([extract_and_clean_subdomains]),
    DNS verification ([verify_dns]), confidence scoring
    ([calculate_confidence]), the 24-hour result cache ([is_cache_valid])
    and the endpoint [subdomain_finder_enhanced] that ties them together.

    Text is modelled as [string] over 8-bit characters, read as the code
    points 0..255; the [str] methods the code calls act on that range
    exactly as CPython's do.  Python dictionaries are [gmap]s, Python sets
    are [gset]s, and every external collaborator (the crt.sh HTTP source,
    the DNS resolver, the clock, the thread-pool completion order, the
    datetime library) is a field of the record [Env], over which every
    property is quantified. *)

From Stdlib Require Import Ascii String ZArith NArith Lia Bool.
From Stdlib Require Import Sorting.Sorted.
From stdpp Require Import base gmap strings list sorting pretty.

Local Open Scope N_scope.

(** ** Python [str] primitives over code points 0..255 *)
Module PyStr.

(** The code point of a character. *)
Definition code (c : ascii) : N := N_of_ascii c.

(** [str.isspace] on one character: TAB..CR, FS..US, space, NEL, NBSP. *)
Definition isspace_char (c : ascii) : bool :=
  let n := code c in
  ((9 <=? n) && (n <=? 13)) || ((28 <=? n) && (n <=? 32))
  || (n =? 133) || (n =? 160).

(** [str.isdigit] on one character: 0..9 and the superscripts 1, 2, 3. *)
Definition isdigit_char (c : ascii) : bool :=
  let n := code c in
  ((48 <=? n) && (n <=? 57)) || (n =? 178) || (n =? 179) || (n =? 185).

(** [str.lower] on one character: A..Z and the Latin-1 capitals. *)
Definition lower_char (c : ascii) : ascii :=
  let n := code c in
  if ((65 <=? n) && (n <=? 90))
     || ((192 <=? n) && (n <=? 222) && negb (n =? 215))
  then ascii_of_N (n + 32) else c.

(** [s.lower()] *)
Fixpoint lower (s : string) : string :=
  match s with
  | EmptyString => EmptyString
  | String c s' => String (lower_char c) (lower s')
  end.

(** Every character of [s] satisfies [p]. *)
Fixpoint all_chars (p : ascii -> bool) (s : string) : bool :=
  match s with
  | EmptyString => true
  | String c s' => p c && all_chars p s'
  end.

(** [s.lstrip()] generalised to a character class. *)
Fixpoint lstrip_with (p : ascii -> bool) (s : string) : string :=
  match s with
  | EmptyString => EmptyString
  | String c s' => if p c then lstrip_with p s' else s
  end.

(** [s.rstrip()] generalised to a character class. *)
Fixpoint rstrip_with (p : ascii -> bool) (s : string) : string :=
  match s with
  | EmptyString => EmptyString
  | String c s' =>
      match rstrip_with p s' with
      | EmptyString => if p c then EmptyString else String c EmptyString
      | r => String c r
      end
  end.

(** [s.strip()] *)
Definition strip (s : string) : string :=
  rstrip_with isspace_char (lstrip_with isspace_char s).

(** [s.rstrip(".")] *)
Definition rstrip_dot (s : string) : string :=
  rstrip_with (Ascii.eqb ".") s.

(** [s.startswith(p)] *)
Fixpoint startswith (s p : string) {struct p} : bool :=
  match p, s with
  | EmptyString, _ => true
  | String _ _, EmptyString => false
  | String a p', String b s' => Ascii.eqb a b && startswith s' p'
  end.

(** [s[n:]] for [n >= 0]. *)
Fixpoint drop (n : nat) (s : string) : string :=
  match n, s with
  | O, _ => s
  | S _, EmptyString => EmptyString
  | S k, String _ s' => drop k s'
  end.

(** [s.endswith(suf)] *)
Definition endswith (s suf : string) : bool :=
  (String.length suf <=? String.length s)%nat
  && String.eqb (drop (String.length s - String.length suf) s) suf.

(** [sub in s] *)
Fixpoint contains (sub s : string) : bool :=
  startswith s sub
  || match s with
     | EmptyString => false
     | String _ s' => contains sub s'
     end.

(** [s.split(sep)] for a one-character separator: never empty. *)
Fixpoint split (sep : ascii) (s : string) : list string :=
  match s with
  | EmptyString => [EmptyString]
  | String c s' =>
      if Ascii.eqb c sep then EmptyString :: split sep s'
      else match split sep s' with
           | h :: t => String c h :: t
           | [] => [String c EmptyString]
           end
  end.

(** [s.split(sep)[0]]: the part before the first separator. *)
Fixpoint split_head (sep : ascii) (s : string) : string :=
  match s with
  | EmptyString => EmptyString
  | String c s' => if Ascii.eqb c sep then EmptyString
                   else String c (split_head sep s')
  end.

(** [s.replace(old, new)] for a non-empty [old] and an empty [new]:
    occurrences are removed left to right without overlap; [skip] counts
    the characters of the occurrence being removed that are still to be
    dropped. *)
Fixpoint remove_from (old : string) (skip : nat) (s : string) : string :=
  match s with
  | EmptyString => EmptyString
  | String c s' =>
      match skip with
      | S k => remove_from old k s'
      | O => if startswith s old
             then remove_from old (String.length old - 1) s'
             else String c (remove_from old O s')
      end
  end.

Definition remove_all (old s : string) : string := remove_from old O s.

(** [s.isdigit()]: non-empty and every character is a digit. *)
Definition isdigit (s : string) : bool :=
  negb (String.eqb s EmptyString) && all_chars isdigit_char s.

End PyStr.

(** ** Hostname grammar *)

(** The line feed character, on which crt.sh separates host names. *)
Definition LF : ascii := "010"%char.

(** [[a-z0-9]] under [re.IGNORECASE]; no character of 128..255 case-folds
    into the class. *)
Definition alnum_char (c : ascii) : bool :=
  let n := PyStr.code c in
  ((48 <=? n) && (n <=? 57)) || ((65 <=? n) && (n <=? 90))
  || ((97 <=? n) && (n <=? 122)).

(** [[a-z0-9-]] under [re.IGNORECASE]. *)
Definition label_char (c : ascii) : bool :=
  alnum_char c || Ascii.eqb c "-".

Definition first_char (s : string) : option ascii :=
  match s with
  | EmptyString => None
  | String c _ => Some c
  end.

Fixpoint last_char (s : string) : option ascii :=
  match s with
  | EmptyString => None
  | String c EmptyString => Some c
  | String _ s' => last_char s'
  end.

Definition is_alnum (o : option ascii) : bool :=
  match o with
  | Some c => alnum_char c
  | None => false
  end.

(** One label, [[a-z0-9](?:[a-z0-9-]{0,61}[a-z0-9])?]: 1 to 63 characters
    of the label class that start and end with an alphanumeric. *)
Definition label_ok (l : string) : bool :=
  (1 <=? String.length l)%nat && (String.length l <=? 63)%nat
  && is_alnum (first_char l) && is_alnum (last_char l)
  && PyStr.all_chars label_char l.

(** The part of the pattern between [^] and [$]: labels separated by
    single dots, under the look-ahead [(?=.{1,253}$)]. *)
Definition hostname_shape (s : string) : bool :=
  (1 <=? String.length s)%nat && (String.length s <=? 253)%nat
  && forallb label_ok (PyStr.split "." s).

(** [s] without its last character when that is a line feed. *)
Fixpoint chop_newline (s : string) : option string :=
  match s with
  | EmptyString => None
  | String c EmptyString => if Ascii.eqb c LF then Some EmptyString else None
  | String c s' => String c <$> chop_newline s'
  end.

(** [HOSTNAME_REGEX.match(s)] is truthy.  Python's [$] also matches just
    before a line feed that ends the string. *)
Definition HOSTNAME_REGEX (s : string) : bool :=
  hostname_shape s
  || match chop_newline s with
     | Some t => hostname_shape t
     | None => false
     end.

Definition rep (n : nat) (c : ascii) : string :=
  string_of_list_ascii (replicate n c).

(** ** Data model *)

(** The record types tried by the verifier, in attempt order. *)
Inductive RType := A | AAAA | CNAME.

#[global] Instance RType_eq_dec : EqDecision RType.
Proof. solve_decision. Defined.

(** The confidence labels ["low"], ["medium"], ["high"]. *)
Inductive Confidence := low | medium | high.

(** One element of the [subdomains] list: the dictionary built by the
    extractor and filled in by the verifier. *)
Record SubdomainInfo := {
  host : string;
  wildcard : bool;
  resolves : bool;
  records : list RType;
  confidence : Confidence
}.

(** One crt.sh result object; only its [name_value] key is read, through
    [entry.get] with the empty string as default. *)
Record Entry := { name_value : option string }.

(** ** Candidate extraction *)

(** The loop state of [extract_and_clean_subdomains]: [raw_candidates]
    and [cleaned_subdomains]. *)
Definition ExtractState : Type := gset string * gmap string SubdomainInfo.

(** The dictionary stored under a new host. *)
Definition new_candidate (host_value : string) (is_wildcard : bool)
  : SubdomainInfo :=
  {| host := host_value; wildcard := is_wildcard; resolves := false;
     records := []; confidence := medium |}.

(** The body of the inner loop, for one element of
    [name_value.split("\n")]. *)
Definition clean_line (domain : string) (st : ExtractState) (line0 : string)
  : ExtractState :=
  let line := PyStr.strip line0 in
  if String.eqb line EmptyString then st
  else
    let raw_candidates := {[ line ]} ∪ st.1 in
    let cleaned_subdomains := st.2 in
    if PyStr.contains " " line || PyStr.contains "@" line
       || PyStr.contains " - " line
    then (raw_candidates, cleaned_subdomains)
    else
      let normalized := PyStr.rstrip_dot (PyStr.strip (PyStr.lower line)) in
      let is_wildcard := PyStr.startswith normalized "*." in
      let host_value := normalized in
      let normalized_for_check :=
        if is_wildcard then PyStr.drop 2 normalized else normalized in
      if negb (HOSTNAME_REGEX normalized_for_check)
      then (raw_candidates, cleaned_subdomains)
      else
        let domain_lower := PyStr.lower domain in
        if negb (String.eqb normalized_for_check domain_lower)
           && negb (PyStr.endswith normalized_for_check ("." +:+ domain_lower))
        then (raw_candidates, cleaned_subdomains)
        else
          match cleaned_subdomains !! host_value with
          | Some _ => (raw_candidates, cleaned_subdomains)
          | None =>
              (raw_candidates,
               <[ host_value := new_candidate host_value is_wildcard ]>
                 cleaned_subdomains)
          end.

(** The body of the outer loop, for one crt.sh result object. *)
Definition clean_entry (domain : string) (st : ExtractState) (entry : Entry)
  : ExtractState :=
  let nv := PyStr.strip (default EmptyString (name_value entry)) in
  if String.eqb nv EmptyString then st
  else foldl (clean_line domain) st (PyStr.split LF nv).

Definition extract_state (raw_data : list Entry) (domain : string)
  : ExtractState :=
  foldl (clean_entry domain) (∅, ∅) raw_data.

(** [extract_and_clean_subdomains(raw_data, domain)] returns
    [len(raw_candidates), cleaned_subdomains]. *)
Definition extract_and_clean_subdomains (raw_data : list Entry)
  (domain : string) : nat * gmap string SubdomainInfo :=
  let st := extract_state raw_data domain in
  (size st.1, st.2).

(** The raw crt.sh payload of the end-to-end scenario. *)
Definition scenario_raw : list Entry :=
  [ {| name_value :=
         Some ("www.example.com" +:+ String LF "mail.example.com") |};
    {| name_value := Some "bad entry with space" |};
    {| name_value := Some "*.example.com" |} ].


(** ** Reports, cache entries and the outside world *)

(** The response dictionary of a completed run, also the cached unit. *)
Record Report := {
  domain : string;
  total_raw : nat;
  total_clean : nat;
  subdomains : list SubdomainInfo
}.

(** One value of the cache file.  [timestamp] is read with
    [.get] (default: the empty string) and [data] by subscript, so either
    key may
    be missing from a file that was not written by this code. *)
Record CacheEntry := {
  timestamp : option string;
  data : option Report
}.

(** A [datetime]: microseconds on the proleptic Gregorian time line,
    either naive or carrying a UTC offset. *)
Inductive DateTime :=
| naive (us : Z)
| aware (us : Z).

(** What the request observes of its collaborators. *)
Record Env := {
  (** [datetime.fromisoformat]; [None] when it raises. *)
  fromisoformat : string -> option DateTime;
  (** [datetime.isoformat] of a naive datetime. *)
  isoformat : Z -> string;
  (** the [n]-th reading of [datetime.now()] during the request *)
  clock : nat -> Z;
  (** [requests.get(url, timeout=15)], [raise_for_status()] and [json()]:
      [inl (str e)] when any of them raises, else the decoded payload *)
  requests_get : string -> string + list Entry;
  (** [dns.resolver.Resolver()] can be built *)
  resolver_available : bool;
  (** [resolver.resolve(hostname, rtype)] returns instead of raising; a
      request asks each pair at most once *)
  resolve : string -> RType -> bool;
  (** the instant at which the pool finishes the task of a host *)
  finish_time : string -> nat;
  (** [open(CACHE_FILE, 'w')] and [json.dump] succeed *)
  cache_writable : bool
}.

(** The effects a request can have on its collaborators. *)
Inductive Event :=
| EvLoadCache
| EvHttpGet (url : string)
| EvResolve (hostname : string) (rtype : RType)
| EvSaveCache.

(** The mutable part of the world: the cache file ([None] when it is
    missing or does not parse), the number of clock readings so far and
    the effects so far, oldest first. *)
Record World := {
  cache_file : option (gmap string CacheEntry);
  clock_reads : nat;
  trace : list Event
}.

(** A computation that reads and changes the world. *)
Definition M (X : Type) : Type := World -> X * World.

Definition ret {X} (x : X) : M X := fun w => (x, w).

Definition bind {X Y} (m : M X) (k : X -> M Y) : M Y :=
  fun w => let '(x, w') := m w in k x w'.

Notation "'let*' x ':=' m 'in' k" := (bind m (fun x => k))
  (at level 10, x pattern, m at level 100, k at level 200).

Definition emit (e : Event) : M unit :=
  fun w => (tt, {| cache_file := cache_file w; clock_reads := clock_reads w;
                   trace := trace w ++ [e] |}).

(** [datetime.now()] *)
Definition datetime_now (E : Env) : M Z :=
  fun w => (clock E (clock_reads w),
            {| cache_file := cache_file w; clock_reads := S (clock_reads w);
               trace := trace w |}).

(** [load_cache()]: the parsed file, or [{}] when it is missing or
    unreadable. *)
Definition load_cache : M (gmap string CacheEntry) :=
  let* _ := emit EvLoadCache in
  fun w => (default ∅ (cache_file w), w).

(** [save_cache(cache_data)]: the whole file is rewritten; a failure is
    printed and otherwise ignored. *)
Definition save_cache (E : Env) (cache_data : gmap string CacheEntry)
  : M unit :=
  let* _ := emit EvSaveCache in
  fun w => (tt, if cache_writable E
                then {| cache_file := Some cache_data;
                        clock_reads := clock_reads w; trace := trace w |}
                else w).

(** [for x in l: ys.append(f(x))] *)
Fixpoint for_each {X Y} (f : X -> M Y) (l : list X) : M (list Y) :=
  match l with
  | [] => ret []
  | x :: l' => let* y := f x in let* ys := for_each f l' in ret (y :: ys)
  end.

(** ** Result cache *)

Definition CACHE_DURATION_HOURS : Z := 24.

(** [timedelta(hours=h)] in microseconds. *)
Definition timedelta_hours (h : Z) : Z := (h * 3600 * 1000000)%Z.

(** [timedelta(minutes=m)] in microseconds. *)
Definition timedelta_minutes (m : Z) : Z := (m * 60 * 1000000)%Z.

(** [is_cache_valid(timestamp_str)].  Subtracting an aware datetime from
    the naive [datetime.now()] raises, which the handler turns into
    [False], as it does a string that does not parse. *)
Definition is_cache_valid (E : Env) (timestamp_str : string) : M bool :=
  match fromisoformat E timestamp_str with
  | Some cached_time =>
      let* now := datetime_now E in
      match cached_time with
      | naive t => ret (now - t <? timedelta_hours CACHE_DURATION_HOURS)%Z
      | aware _ => ret false
      end
  | None => ret false
  end.


(** ** DNS verification *)

(** One [resolver.resolve(hostname, rtype)] inside its own [try]: [true]
    when it returns, [false] when it raises. *)
Definition try_resolve (E : Env) (hostname : string) (rtype : RType)
  : M bool :=
  let* _ := emit (EvResolve hostname rtype) in
  ret (resolve E hostname rtype).

Definition RType_eqb (a b : RType) : bool :=
  match a, b with
  | A, A | AAAA, AAAA | CNAME, CNAME => true
  | _, _ => false
  end.

(** [rtype in records] *)
Definition in_records (rtype : RType) (records : list RType) : bool :=
  existsb (RType_eqb rtype) records.

(** [verify_dns(hostname, timeout=0.5)] returns [(resolves, records)]. *)
Definition verify_dns (E : Env) (hostname : string)
  : M (bool * list RType) :=
  let records := [] in
  let resolves := false in
  if PyStr.startswith hostname "*." then ret (false, [])
  else if negb (resolver_available E) then ret (resolves, records)
  else
    let* ok_a := try_resolve E hostname A in
    let '(resolves, records) :=
      if ok_a then (true, records ++ [A]) else (resolves, records) in
    let* ok_aaaa := try_resolve E hostname AAAA in
    let '(resolves, records) :=
      if ok_aaaa
      then (true, if in_records AAAA records then records
                  else records ++ [AAAA])
      else (resolves, records) in
    let* ok_cname := try_resolve E hostname CNAME in
    let '(resolves, records) :=
      if ok_cname
      then (true, if in_records CNAME records then records
                  else records ++ [CNAME])
      else (resolves, records) in
    ret (resolves, records).

(** ** Confidence scoring *)

(** [calculate_confidence(resolves, hostname)] *)
Definition calculate_confidence (resolves : bool) (hostname : string)
  : Confidence :=
  if PyStr.startswith hostname "*." then medium
  else if resolves then high
  else
    match PyStr.split "." hostname with
    | first_label :: _ => if PyStr.isdigit first_label then low else medium
    | [] => medium
    end.

(** ** The endpoint *)

(** [sanitize_hostname(value)]; [SAFE_HOSTNAME_RE] is the same pattern as
    [HOSTNAME_REGEX]. *)
Definition sanitize_hostname (value : string) : option string :=
  if String.eqb value EmptyString then None
  else
    let candidate := PyStr.lower (PyStr.strip value) in
    let candidate :=
      PyStr.split_head "/"
        (PyStr.remove_all "http://" (PyStr.remove_all "https://" candidate)) in
    let candidate := PyStr.split_head ":" candidate in
    if HOSTNAME_REGEX candidate then Some candidate else None.

(** The closure [verify_one(subdomain_info)] of the endpoint. *)
Definition verify_one (E : Env) (subdomain_info : SubdomainInfo)
  : M SubdomainInfo :=
  let hostname := host subdomain_info in
  let* (resolves', records') := verify_dns E hostname in
  ret {| host := host subdomain_info;
         wildcard := wildcard subdomain_info;
         resolves := resolves';
         records := records';
         confidence := calculate_confidence resolves' hostname |}.

(** Stable insertion of [x] into a list ordered by [le]. *)
Fixpoint insert_by {X} (le : X -> X -> bool) (x : X) (l : list X) : list X :=
  match l with
  | [] => [x]
  | y :: l' => if le x y then x :: l else y :: insert_by le x l'
  end.

(** [l.sort(key=...)]: the stable sort of [l] for the order [le] on keys. *)
Definition sort_by {X} (le : X -> X -> bool) (l : list X) : list X :=
  foldr (insert_by le) [] l.

(** [key=lambda x: x["host"]]: strings compare by code point. *)
Definition host_le (x y : SubdomainInfo) : bool :=
  String.leb (host x) (host y).

(** Completion order of the pool: by finishing instant of each task. *)
Definition finish_le (E : Env) (x y : SubdomainInfo) : bool :=
  (finish_time E (host x) <=? finish_time E (host y))%nat.

(** The [ThreadPoolExecutor] block: one [verify_one] per candidate, the
    results appended as the tasks complete.  No task can raise, so none
    is dropped.  The queries of the tasks are traced task by task; their
    answers do not depend on the interleaving. *)
Definition verify_all (E : Env) (subdomain_list : list SubdomainInfo)
  : M (list SubdomainInfo) :=
  let* results := for_each (verify_one E) subdomain_list in
  ret (sort_by (finish_le E) results).

(** The JSON body of a response. *)
Inductive Body :=
| BError (error : string)
| BReport (r : Report)
| BFailedReport (r : Report) (error : string).

(** Body and HTTP status. *)
Definition Response : Type := Body * nat.


(** The zeroed report sent with a failed crt.sh fetch. *)
Definition empty_report (domain_ : string) : Report :=
  {| domain := domain_; total_raw := 0; total_clean := 0; subdomains := [] |}.

(** The cache lookup of the endpoint: [None] on a miss (key absent or
    entry stale), [Some (cached_entry.get "data")] on a hit. *)
Definition cache_lookup (E : Env) (cache : gmap string CacheEntry)
  (cache_key : string) : M (option (option Report)) :=
  match cache !! cache_key with
  | Some cached_entry =>
      let ts := default EmptyString (timestamp cached_entry) in
      let* valid := is_cache_valid E ts in
      if valid then ret (Some (data cached_entry)) else ret None
  | None => ret None
  end.

(** The domain the endpoint works with, after its own clean-up of the
    sanitized request value. *)
Definition clean_domain (sanitized_domain : string) : string :=
  let domain :=
    PyStr.split_head "/"
      (PyStr.remove_all "https://"
         (PyStr.remove_all "http://" sanitized_domain)) in
  PyStr.split_head ":" domain.

(** The part of the endpoint after a cache miss: fetch, extract, verify,
    sort, store, answer. *)
Definition run_pipeline (E : Env) (domain_ : string)
  (cache : gmap string CacheEntry) (cache_key : string) : M Response :=
  let url := "https://crt.sh/?q=%." +:+ domain_ +:+ "&output=json" in
  let* _ := emit (EvHttpGet url) in
  match requests_get E url with
  | inl e =>
      ret (BFailedReport (empty_report domain_)
             ("Failed to fetch from crt.sh: " +:+ e), 500%nat)
  | inr raw_data =>
      let '(total_raw_, cleaned_subdomains) :=
        extract_and_clean_subdomains raw_data domain_ in
      let subdomain_list := (map_to_list cleaned_subdomains).*2 in
      let* verified := verify_all E subdomain_list in
      let verified_subdomains := sort_by host_le verified in
      let response_data :=
        {| domain := domain_;
           total_raw := total_raw_;
           total_clean := length verified_subdomains;
           subdomains := verified_subdomains |} in
      let* now := datetime_now E in
      let cache' :=
        <[ cache_key := {| timestamp := Some (isoformat E now);
                           data := Some response_data |} ]> cache in
      let* _ := save_cache E cache' in
      ret (BReport response_data, 200%nat)
  end.

(** [subdomain_finder_enhanced()], for a request whose JSON body is an
    object with a string under ["domain"] ([None]: no such key, or a
    body that is not JSON). *)
Definition subdomain_finder_enhanced (E : Env) (request_domain : option string)
  : M Response :=
  let domain_ :=
    PyStr.lower (PyStr.strip (default EmptyString request_domain)) in
  if String.eqb domain_ EmptyString
  then ret (BError "Please provide a valid domain name (e.g., example.com)",
            400%nat)
  else
    match sanitize_hostname domain_ with
    | None =>
        ret (BError
               "Invalid domain format. Please provide a valid domain name.",
             400%nat)
    | Some sanitized_domain =>
        let domain_ := clean_domain sanitized_domain in
        let* cache := load_cache in
        let cache_key := "subdomains_" +:+ domain_ in
        let* hit := cache_lookup E cache cache_key in
        match hit with
        | Some (Some r) => ret (BReport r, 200%nat)
        | Some None => ret (BError "'data'", 500%nat)
        | None => run_pipeline E domain_ cache cache_key
        end
    end.


(** ** A concrete world, for running the model *)

Module Demo.

Local Open Scope Z_scope.

(** Days from 1970-01-01 to the civil date [y]-[m]-[d]. *)
Definition days_from_civil (y m d : Z) : Z :=
  let y := if m <=? 2 then y - 1 else y in
  let era := y / 400 in
  let yoe := y - era * 400 in
  let doy := (153 * (if 2 <? m then m - 3 else m + 9) + 2) / 5 + d - 1 in
  let doe := yoe * 365 + yoe / 4 - yoe / 100 + doy in
  era * 146097 + doe - 719468.

(** The civil date [(y, m, d)] that lies [z] days after 1970-01-01. *)
Definition civil_from_days (z : Z) : Z * Z * Z :=
  let z := z + 719468 in
  let era := z / 146097 in
  let doe := z - era * 146097 in
  let yoe := (doe - doe / 1460 + doe / 36524 - doe / 146096) / 365 in
  let doy := doe - (365 * yoe + yoe / 4 - yoe / 100) in
  let mp := (5 * doy + 2) / 153 in
  let d := doy - (153 * mp + 2) / 5 + 1 in
  let m := if mp <? 10 then mp + 3 else mp - 9 in
  (if m <=? 2 then yoe + era * 400 + 1 else yoe + era * 400, m, d).

Definition digit_of (c : ascii) : option Z :=
  let n := Z.of_N (PyStr.code c) in
  if (48 <=? n) && (n <=? 57) then Some (n - 48) else None.

Fixpoint number (acc : Z) (s : string) : option Z :=
  match s with
  | EmptyString => Some acc
  | String c s' =>
      match digit_of c with
      | Some d => number (10 * acc + d) s'
      | None => None
      end
  end.

(** The [len] decimal digits of [s] from position [start]. *)
Definition field (start len : nat) (s : string) : option Z :=
  let f := String.substring start len s in
  if (String.length f =? len)%nat then number 0 f else None.

Definition days_in_month (y m : Z) : Z :=
  if m =? 2
  then if ((y mod 4 =? 0) && negb (y mod 100 =? 0)) || (y mod 400 =? 0)
       then 29 else 28
  else if (m =? 4) || (m =? 6) || (m =? 9) || (m =? 11) then 30 else 31.

Definition us_per_second : Z := 1000000.
Definition us_per_day : Z := 86400 * us_per_second.

(** [datetime.fromisoformat] on the two forms that [isoformat] writes for
    a naive datetime, [YYYY-MM-DDTHH:MM:SS] and
    [YYYY-MM-DDTHH:MM:SS.ffffff]; any other text is refused. *)
Definition parse_isoformat (s : string) : option DateTime :=
  let n := String.length s in
  let frac :=
    if (n =? 19)%nat then Some 0
    else if (n =? 26)%nat && String.eqb (String.substring 19 1 s) "."
         then field 20 6 s else None in
  match field 0 4 s, field 5 2 s, field 8 2 s,
        field 11 2 s, field 14 2 s, field 17 2 s, frac with
  | Some y, Some m, Some d, Some hh, Some mm, Some ss, Some us =>
      if String.eqb (String.substring 4 1 s) "-"
         && String.eqb (String.substring 7 1 s) "-"
         && String.eqb (String.substring 10 1 s) "T"
         && String.eqb (String.substring 13 1 s) ":"
         && String.eqb (String.substring 16 1 s) ":"
         && (1 <=? y) && (1 <=? m) && (m <=? 12)
         && (1 <=? d) && (d <=? days_in_month y m)
         && (hh <? 24) && (mm <? 60) && (ss <? 60)
      then Some (naive (days_from_civil y m d * us_per_day
                        + ((hh * 60 + mm) * 60 + ss) * us_per_second + us))
      else None
  | _, _, _, _, _, _, _ => None
  end.

(** [n] in decimal, on [width] digits. *)
Fixpoint digits (width : nat) (n : Z) : string :=
  match width with
  | O => EmptyString
  | S k => digits k (n / 10)
           +:+ String (ascii_of_N (Z.to_N (48 + n mod 10))) EmptyString
  end.

(** [datetime.isoformat] of the naive datetime at [t] microseconds. *)
Definition print_isoformat (t : Z) : string :=
  let day := t / us_per_day in
  let rest := t mod us_per_day in
  let '(y, m, d) := civil_from_days day in
  let secs := rest / us_per_second in
  let us := rest mod us_per_second in
  digits 4 y +:+ "-" +:+ digits 2 m +:+ "-" +:+ digits 2 d +:+ "T"
  +:+ digits 2 (secs / 3600) +:+ ":" +:+ digits 2 (secs / 60 mod 60)
  +:+ ":" +:+ digits 2 (secs mod 60)
  +:+ (if us =? 0 then EmptyString else "." +:+ digits 6 us).

(** 2024-03-01T12:00:00, in microseconds. *)
Definition noon : Z := 1709294400000000.

(** crt.sh answers the scenario payload for [example.com] and fails for
    every other domain; [www] has an A record and [mail] an A and a CNAME
    record; the clock starts at [noon] and advances by a second per
    reading; longer names take longer to verify. *)
Definition env : Env :=
  {| fromisoformat := parse_isoformat;
     isoformat := print_isoformat;
     clock := fun n => noon + Z.of_nat n * us_per_second;
     requests_get := fun url =>
       if String.eqb url "https://crt.sh/?q=%.example.com&output=json"
       then inr scenario_raw
       else inl "503 Server Error: Service Unavailable";
     resolver_available := true;
     resolve := fun h rt =>
       match rt with
       | A => String.eqb h "www.example.com" || String.eqb h "mail.example.com"
       | AAAA => false
       | CNAME => String.eqb h "mail.example.com"
       end;
     finish_time := String.length;
     cache_writable := true |}.

(** A server that has no cache file yet. *)
Definition fresh_world : World :=
  {| cache_file := None; clock_reads := 0; trace := [] |}.

End Demo.


(** ** Vocabulary of the properties *)

(** A character that [str.lower] leaves alone. *)
Definition is_lower_char (c : ascii) : bool :=
  Ascii.eqb (PyStr.lower_char c) c.

(** [s] is in lower case: it is its own [lower()]. *)
Definition lowercase (s : string) : Prop := PyStr.lower s = s.

(** [s] ends with [suf]. *)
Definition ends_with (s suf : string) : Prop := exists p, s = p +:+ suf.

(** [s] starts with [p]. *)
Definition starts_with (s p : string) : Prop := exists r, s = p +:+ r.

(** [h] is [domain_] itself or lies under it. *)
Definition within (domain_ h : string) : Prop :=
  h = domain_ \/ ends_with h ("." +:+ domain_).

(** Code-point order of two hosts, and the same order ignoring case. *)
Definition host_leq (x y : SubdomainInfo) : Prop :=
  String.leb (host x) (host y) = true.

Definition host_leq_nocase (x y : SubdomainInfo) : Prop :=
  String.leb (PyStr.lower (host x)) (PyStr.lower (host y)) = true.

(** What the extractor guarantees of the candidate stored under [k]. *)
Definition candidate_ok (k : string) (c : SubdomainInfo) : Prop :=
  host c = k
  /\ lowercase k
  /\ ~ ends_with k "."
  /\ (wildcard c = true <-> starts_with k "*.")
  /\ resolves c = false /\ records c = [] /\ confidence c = medium.


(** The attempt for [rtype] on [hostname] is made and succeeds. *)
Definition attempt_succeeds (E : Env) (hostname : string) (rtype : RType)
  : bool :=
  resolver_available E && resolve E hostname rtype.

(** The attempts of one verification, in the order they are made. *)
Definition attempts : list RType := [A; AAAA; CNAME].

(** A world in which [n] clock readings were already taken. *)
Definition world_at (n : nat) : World :=
  {| cache_file := None; clock_reads := n; trace := [] |}.


(** The invariant of the extraction loop on [cleaned_subdomains]. *)
Definition cleaned_ok (d : string) (m : gmap string SubdomainInfo) : Prop :=
  map_Forall (fun k c => candidate_ok k c /\ within (PyStr.lower d) k) m.


(** The report a response carries, if it carries one. *)
Definition returned_report (resp : Response) : option Report :=
  match resp.1 with
  | BReport r | BFailedReport r _ => Some r
  | BError _ => None
  end.

(** The domain a request is about, once sanitized and cleaned; [None]
    when the endpoint refuses the request. *)
Definition queried_domain (request_domain : option string) : option string :=
  clean_domain
    <$> sanitize_hostname
          (PyStr.lower (PyStr.strip (default EmptyString request_domain))).

(** The shape of a report the pipeline builds. *)
Definition report_ok (r : Report) : Prop :=
  lowercase (domain r)
  /\ Forall (fun x => within (domain r) (host x)) (subdomains r)
  /\ Sorted host_leq (subdomains r)
  /\ Sorted host_leq_nocase (subdomains r)
  /\ total_clean r = length (subdomains r).

(** Every report of the cache has that shape and lies under the key of
    its domain. *)
Definition cache_ok (cache : gmap string CacheEntry) : Prop :=
  forall key e r,
    cache !! key = Some e -> data e = Some r ->
    key = "subdomains_" +:+ domain r /\ report_ok r.

(** The worlds a server can be in: it starts without a cache file and
    then serves requests, each in an environment of its own. *)
Inductive reachable : World -> Prop :=
| reachable_start n t :
    reachable {| cache_file := None; clock_reads := n; trace := t |}
| reachable_request E request_domain w :
    reachable w ->
    reachable (subdomain_finder_enhanced E request_domain w).2.


(** [w'] is [w] after some DNS queries and nothing else. *)
Definition only_queries (w w' : World) : Prop :=
  cache_file w' = cache_file w
  /\ clock_reads w' = clock_reads w
  /\ exists qs, trace w' = trace w ++ qs
               /\ Forall (fun e => exists h rt, e = EvResolve h rt) qs.

(** The crt.sh query of a domain and the cache key of a domain. *)
Definition crt_url (d : string) : string :=
  "https://crt.sh/?q=%." +:+ d +:+ "&output=json".

Definition cache_key_of (d : string) : string := "subdomains_" +:+ d.

(** The request for [d] misses the cache of [w]: no entry under the key
    of [d], or one that the validity check refuses. *)
Definition cache_miss (E : Env) (w : World) (d : string) : Prop :=
  match default ∅ (cache_file w) !! cache_key_of d with
  | Some e =>
      (is_cache_valid E (default EmptyString (timestamp e)) w).1 = false
  | None => True
  end.


(** The demo server after it has answered a first request for
    [example.com]. *)
Definition warm_world : World :=
  (subdomain_finder_enhanced Demo.env (Some "example.com") Demo.fresh_world).2.


(** The report the demo server gives for [example.com]. *)
Definition demo_report : Report :=
  {| domain := "example.com"; total_raw := 4; total_clean := 3;
     subdomains :=
       [ new_candidate "*.example.com" true;
         {| host := "mail.example.com"; wildcard := false; resolves := true;
            records := [A; CNAME]; confidence := high |};
         {| host := "www.example.com"; wildcard := false; resolves := true;
            records := [A]; confidence := high |} ] |}.


(** The relation decided by a boolean order. *)
Definition holds {X} (le : X -> X -> bool) (x y : X) : Prop := le x y = true.

(** The lines a crt.sh row contributes to [raw_candidates]: the stripped,
    non-empty pieces of its stripped [name_value]. *)
Definition entry_lines (e : Entry) : list string :=
  List.filter (fun l => negb (String.eqb l EmptyString))
    (PyStr.strip
       <$> PyStr.split LF (PyStr.strip (default EmptyString (name_value e)))).

(** All lines of a payload, before any filtering. *)
Definition raw_lines (raw_data : list Entry) : list string :=
  raw_data ≫= entry_lines.


(** ** Vocabulary of the further properties *)

(** The key under which the extractor files a stripped, non-empty line,
    or [None] when one of its filters discards the line. *)
Definition line_key (d line : string) : option string :=
  if PyStr.contains " " line || PyStr.contains "@" line
     || PyStr.contains " - " line
  then None
  else
    let normalized := PyStr.rstrip_dot (PyStr.strip (PyStr.lower line)) in
    let checked :=
      if PyStr.startswith normalized "*." then PyStr.drop 2 normalized
      else normalized in
    if negb (HOSTNAME_REGEX checked) then None
    else if negb (String.eqb checked (PyStr.lower d))
            && negb (PyStr.endswith checked ("." +:+ PyStr.lower d))
         then None
         else Some normalized.

(** The keys a list of lines gives rise to. *)
Definition keys_of (d : string) (lines : list string) : gset string :=
  list_to_set (omap (line_key d) lines).


(** [[a-z0-9.-]] *)
Definition dns_char (c : ascii) : bool :=
  let n := PyStr.code c in
  ((48 <=? n) && (n <=? 57)) || ((97 <=? n) && (n <=? 122))
  || Ascii.eqb c "-" || Ascii.eqb c ".".

(** [m] is the candidate map that the lines [seen] give rise to. *)
Definition map_of_lines (d : string) (seen : list string)
  (m : gmap string SubdomainInfo) : Prop :=
  forall k c, m !! k = Some c <->
    k ∈ keys_of d seen /\ c = new_candidate k (PyStr.startswith k "*.").

(** The stripped form of a line when it is not empty. *)
Definition kept_line (line0 : string) : list string :=
  if String.eqb (PyStr.strip line0) EmptyString then []
  else [PyStr.strip line0].


(** The character is not [sep]. *)
Definition is_not (sep c : ascii) : bool := negb (Ascii.eqb c sep).


(** The DNS queries that the verification of [hostname] issues. *)
Definition queries_of (E : Env) (hostname : string) : list Event :=
  if PyStr.startswith hostname "*." then []
  else if resolver_available E then EvResolve hostname <$> attempts
  else [].

(** The candidate [c] once verified; the world plays no part in it. *)
Definition verified (E : Env) (c : SubdomainInfo) : SubdomainInfo :=
  (verify_one E c (world_at 0)).1.

(** The fields of a verified record agree with each other. *)
Definition record_ok (x : SubdomainInfo) : Prop :=
  (wildcard x = true <-> starts_with (host x) "*.")
  /\ (wildcard x = true -> resolves x = false)
  /\ (resolves x = true <-> records x <> [])
  /\ NoDup (records x)
  /\ confidence x = calculate_confidence (resolves x) (host x)
  /\ (confidence x = high <-> resolves x = true).




(** A character of a sanitized hostname: [[a-z0-9.-]] or a line feed. *)
Definition sanitized_char (c : ascii) : bool :=
  dns_char c || Ascii.eqb c LF.


(** A character of the hostname grammar: [[a-zA-Z0-9.-]]. *)
Definition host_char (c : ascii) : bool := label_char c || Ascii.eqb c ".".


(** ** The e-mail sanitizer *)

(** [[^\s@]]: [\s] is the white space of [str.isspace]. *)
Definition email_char (c : ascii) : bool :=
  negb (PyStr.isspace_char c) && negb (Ascii.eqb c "@").

(** The text after the first [sep], when there is one. *)
Fixpoint after_first (sep : ascii) (s : string) : option string :=
  match s with
  | EmptyString => None
  | String c s' => if Ascii.eqb c sep then Some s' else after_first sep s'
  end.

(** Some dot of [s] has a character after it. *)
Fixpoint dot_then_more (s : string) : bool :=
  match s with
  | EmptyString => false
  | String c s' =>
      (Ascii.eqb c "." && negb (String.eqb s' EmptyString)) || dot_then_more s'
  end.

(** [[^\s@]+\.[^\s@]+] on a text of such characters: a dot with a
    character before it and a character after it. *)
Definition inner_dot (s : string) : bool :=
  match s with
  | EmptyString => false
  | String _ s' => dot_then_more s'
  end.

(** The part of [EMAIL_RE] between [^] and [$]. *)
Definition email_shape (s : string) : bool :=
  match after_first "@" s with
  | None => false
  | Some rest =>
      let local := PyStr.split_head "@" s in
      negb (String.eqb local EmptyString)
      && PyStr.all_chars email_char local
      && PyStr.all_chars email_char rest
      && inner_dot rest
  end.

(** [EMAIL_RE.match(s)] is truthy; [$] also matches before a final line
    feed. *)
Definition EMAIL_RE (s : string) : bool :=
  email_shape s
  || match chop_newline s with
     | Some t => email_shape t
     | None => false
     end.

(** [sanitize_email_value(value)] for a string, the empty string
    standing for a missing or null value as well. *)
Definition sanitize_email_value (value : string) : option string :=
  if String.eqb value EmptyString then None
  else
    let candidate := PyStr.lower (PyStr.strip value) in
    if EMAIL_RE candidate then Some candidate else None.


(** ** The rate limiter *)

Module RateLimit.

(** [time.time()] gives floats; the limiter adds the window to one,
    compares two and truncates a difference.  These three operations are
    left open, so that what is proved holds whatever floats do. *)
Record TimeOps := {
  Time : Type;
  (** [now > reset] *)
  after : Time -> Time -> bool;
  (** [now + RATE_WINDOW_SECONDS] *)
  plus_window : Time -> Time;
  (** [int(reset - now)] *)
  whole_seconds : Time -> Time -> Z
}.

(** One value of [_rate_limit_bucket]. *)
Record Bucket (T : Type) := { count : Z; reset : T }.
Arguments count {T} _.
Arguments reset {T} _.

(** What the limiter reads of a request. *)
Record Request := {
  path : string;
  cf_connecting_ip : option string;
  x_forwarded_for : option string;
  remote_addr : option string
}.

(** The 429 response: [retry_after] goes into the body and into the
    [Retry-After] header. *)
Record TooMany := { retry_after : Z }.

(** Python truth of an optional string. *)
Definition truthy (o : option string) : bool :=
  match o with
  | Some s => negb (String.eqb s EmptyString)
  | None => false
  end.

(** [a or b or c or "anonymous"] *)
Definition ip_key (q : Request) : string :=
  if truthy (cf_connecting_ip q) then default EmptyString (cf_connecting_ip q)
  else if truthy (x_forwarded_for q) then default EmptyString (x_forwarded_for q)
  else if truthy (remote_addr q) then default EmptyString (remote_addr q)
  else "anonymous".

Definition is_api (q : Request) : bool := PyStr.startswith (path q) "/api/".

Section Limiter.

Context (ops : TimeOps) (RATE_LIMIT : Z).

(** [enforce_rate_limit()] at time [now]: [None] lets the request
    through. *)
Definition enforce_rate_limit (q : Request) (now : Time ops)
  (buckets : gmap string (Bucket (Time ops)))
  : option TooMany * gmap string (Bucket (Time ops)) :=
  if negb (is_api q) then (None, buckets)
  else
    let fresh := {| count := 0; reset := plus_window ops now |} in
    let bucket := default fresh (buckets !! ip_key q) in
    let bucket := if after ops now (reset bucket) then fresh else bucket in
    let bucket := {| count := count bucket + 1; reset := reset bucket |} in
    let buckets := <[ ip_key q := bucket ]> buckets in
    if (RATE_LIMIT <? count bucket)%Z
    then (Some {| retry_after :=
                    Z.max 1 (whole_seconds ops (reset bucket) now) |},
          buckets)
    else (None, buckets).

(** A run of requests, each with the time at which it is handled. *)
Fixpoint serve (rs : list (Request * Time ops))
  (buckets : gmap string (Bucket (Time ops)))
  : list (option TooMany) * gmap string (Bucket (Time ops)) :=
  match rs with
  | [] => ([], buckets)
  | (q, now) :: rs' =>
      let '(d, buckets) := enforce_rate_limit q now buckets in
      let '(ds, buckets) := serve rs' buckets in
      (d :: ds, buckets)
  end.

(** The request is one of client [k] that the limiter counts. *)
Definition from_client (k : string) (q : Request) : bool :=
  is_api q && String.eqb (ip_key q) k.

(** Whether each counted request of client [k] was let through, in
    order. *)
Fixpoint let_through (k : string) (rs : list (Request * Time ops))
  (ds : list (option TooMany)) : list bool :=
  match rs, ds with
  | (q, _) :: rs', d :: ds' =>
      if from_client k q
      then (if d is None then true else false) :: let_through k rs' ds'
      else let_through k rs' ds'
  | _, _ => []
  end.

(** The number of counted requests of client [k] in a run. *)
Definition counted (k : string) (rs : list (Request * Time ops)) : nat :=
  length (List.filter (fun r => from_client k r.1) rs).

(** The client is new, or its window has passed at [now]. *)
Definition window_over (k : string) (now : Time ops)
  (buckets : gmap string (Bucket (Time ops))) : Prop :=
  match buckets !! k with
  | Some b => after ops now (reset b) = true
  | None => True
  end.

End Limiter.

(** Whole seconds as the time line, for running the limiter. *)
Definition seconds (window : Z) : TimeOps :=
  {| Time := Z; after := fun now r => (r <? now)%Z;
     plus_window := fun now => (now + window)%Z;
     whole_seconds := fun r now => (r - now)%Z |}.

End RateLimit.


(** Three API requests of one client, ten seconds apart. *)
Definition burst_request : RateLimit.Request :=
  {| RateLimit.path := "/api/recon/dns";
     RateLimit.cf_connecting_ip := None;
     RateLimit.x_forwarded_for := Some "203.0.113.7";
     RateLimit.remote_addr := Some "10.0.0.1" |}.

Definition burst : list (RateLimit.Request * Z) :=
  [(burst_request, 0%Z); (burst_request, 10%Z); (burst_request, 20%Z)].


(** ** CORS preflight *)

Module Cors.






End Cors.

(** ** The port scanner *)

Module Portscan.

Definition COMMON_PORTS : list Z := [22; 80; 443; 8080; 3306]%Z.

(** The JSON body as the endpoint reads it: [ports] is [None] unless it
    is a list, and an item of the list is [None] when [int(p)] raises. *)
Record Request := {
  target : option string;
  host_ : option string;
  ports : option (list (option Z))
}.

(** Python truth of an optional string. *)
Definition truthy (o : option string) : bool :=
  match o with
  | Some s => negb (String.eqb s EmptyString)
  | None => false
  end.

(** [(data.get("target") or data.get("host") or ...).strip()], the last
    operand being the empty string. *)
Definition target_of (q : Request) : string :=
  PyStr.strip
    (if truthy (target q) then default EmptyString (target q)
     else if truthy (host_ q) then default EmptyString (host_ q)
     else EmptyString).

(** [[int(p) for p in ports]], or [None] when a conversion raises. *)
Fixpoint ints (l : list (option Z)) : option (list Z) :=
  match l with
  | [] => Some []
  | Some z :: l' => cons z <$> ints l'
  | None :: _ => None
  end.

(** The [port_list] of the endpoint. *)
Definition port_list_of (q : Request) : list Z :=
  match ports q with
  | Some (p :: ps) =>
      match ints (p :: ps) with
      | Some requested =>
          sort_by Z.leb
            (elements ((list_to_set requested : gset Z)
                         ∩ list_to_set COMMON_PORTS))
      | None => COMMON_PORTS
      end
  | _ => COMMON_PORTS
  end.

(** The answers of the endpoint. *)
Inductive Answer :=
| Missing (error : string)
| Scanned (target_ : string) (ports_ : list Z)
    (results : list (string * string)).

(** [portscan()]: the answer, its status and the connections that
    [_is_port_open] attempts, in order.  [port_open host p] tells
    whether [connect_ex] returns 0; an exception counts as closed. *)
Definition portscan (port_open : string -> Z -> bool) (q : Request)
  : Answer * nat * list (string * Z) :=
  let tgt := target_of q in
  if String.eqb tgt EmptyString
  then (Missing "Missing 'target' (hostname or IP)", 400%nat, [])
  else
    let port_list := port_list_of q in
    (Scanned tgt port_list
       ((fun p => (pretty p,
                   if port_open tgt p then "open" else "closed"))
          <$> port_list),
     200%nat,
     (fun p => (tgt, p)) <$> port_list).

End Portscan.



(** ** The quick subdomain tool *)

Module Tools.

(** The JSON body of an answer of [/api/tools/subdomain]. *)
Inductive Body :=
| Error (error : string)
| Names (domain_ : string) (count : nat) (subdomains_ : list string).

(** The body of the loop, for one crt.sh result object. *)
Definition add_name (domain_ : string) (subdomains_ : gset string)
  (entry : Entry) : gset string :=
  let name := PyStr.strip (default EmptyString (name_value entry)) in
  if negb (String.eqb name EmptyString) && PyStr.contains domain_ name
  then {[ PyStr.lower (PyStr.split_head LF name) ]} ∪ subdomains_
  else subdomains_.

(** [subdomain_finder()], for a request whose JSON body has a string
    under ["domain"] or no such key.  [get] is
    [requests.get(url, timeout=10)] with [raise_for_status()] and
    [json()]: [inl (str e)] when any of them raises. *)
Definition subdomain_finder (get : string -> string + list Entry)
  (request_domain : option string) : M (Body * nat) :=
  match request_domain ≫= sanitize_hostname with
  | None => ret (Error "Missing or invalid 'domain'", 400%nat)
  | Some domain_ =>
      let url := "https://crt.sh/?q=%." +:+ domain_ +:+ "&output=json" in
      let* _ := emit (EvHttpGet url) in
      match get url with
      | inl e => ret (Error e, 500%nat)
      | inr results =>
          let subdomains_ :=
            foldl (add_name domain_) ∅ (take 100 results) in
          ret (Names domain_ (size subdomains_)
                 (sort_by String.leb (elements subdomains_)), 200%nat)
      end
  end.

(** The rows from which the tool takes the name [x]: those among the
    first hundred whose stripped [name_value] mentions the domain; [x] is
    the first line of that value, in lower case. *)
Definition names_row (domain_ x : string) (entry : Entry) : Prop :=
  let name := PyStr.strip (default EmptyString (name_value entry)) in
  name <> EmptyString /\ PyStr.contains domain_ name = true
  /\ x = PyStr.lower (PyStr.split_head LF name).

End Tools.

(** A crt.sh answer for the tool: two rows of the domain, one of them
    with two lines, and a blank row. *)
Definition tool_rows : list Entry :=
  [ {| name_value := Some ("WWW.example.com" +:+ String LF "example.com") |};
    {| name_value := Some " " |};
    {| name_value := None |};
    {| name_value := Some "api.example.com" |};
    {| name_value := Some "www.example.com" |} ].

(** * Properties *)

(** ** Sanity checks of the string primitives against CPython *)

Example strip_ex :
  PyStr.strip (String "009" (" a b " +:+ String "010" " ")) = "a b".
Proof. reflexivity. Qed.
Example split_ex :
  PyStr.split "." "a..b." = ["a"; EmptyString; "b"; EmptyString].
Proof. reflexivity. Qed.
Example split_head_ex : PyStr.split_head "/" "a.b/c/d" = "a.b".
Proof. reflexivity. Qed.
Example remove_all_ex : PyStr.remove_all "aa" "aaabaab" = "abb".
Proof. reflexivity. Qed.
Example rstrip_dot_ex : PyStr.rstrip_dot "a.b..." = "a.b".
Proof. reflexivity. Qed.
Example endswith_ex :
  PyStr.endswith "*.example.com" ".example.com" = true
  /\ PyStr.endswith "com" ".example.com" = false.
Proof. split; reflexivity. Qed.
Example lower_ex : PyStr.lower "WwW.Ex-1.COM" = "www.ex-1.com".
Proof. reflexivity. Qed.
Example strip_latin1_ex :
  PyStr.strip (String "031" (" a" +:+ String "160" (String "133" EmptyString)))
  = "a".
Proof. reflexivity. Qed.
Example lower_latin1_ex :
  PyStr.lower (String "192" (String "215" (String "223" (String "222" EmptyString))))
  = String "224" (String "215" (String "223" (String "254" EmptyString))).
Proof. reflexivity. Qed.
Example isdigit_ex :
  PyStr.isdigit "12" = true /\ PyStr.isdigit "1a" = false
  /\ PyStr.isdigit EmptyString = false
  /\ PyStr.isdigit (String "178" EmptyString) = true.
Proof. repeat split; reflexivity. Qed.
Example remove_all_once_ex :
  PyStr.remove_all "http://" "hthttp://tp://x" = "http://x".
Proof. reflexivity. Qed.
Example contains_ex :
  PyStr.contains " - " "a - b" = true /\ PyStr.contains "@" "a.b" = false
  /\ PyStr.contains EmptyString "x" = true.
Proof. repeat split; reflexivity. Qed.

Example HOSTNAME_REGEX_ex :
  HOSTNAME_REGEX "example.com" = true
  /\ HOSTNAME_REGEX "Ex-1.COM" = true
  /\ HOSTNAME_REGEX EmptyString = false
  /\ HOSTNAME_REGEX "a..b" = false
  /\ HOSTNAME_REGEX "a." = false
  /\ HOSTNAME_REGEX "-a" = false
  /\ HOSTNAME_REGEX "a-" = false
  /\ HOSTNAME_REGEX "*.a" = false
  /\ HOSTNAME_REGEX (rep 63 "a") = true
  /\ HOSTNAME_REGEX (rep 64 "a") = false
  /\ HOSTNAME_REGEX ("abc" +:+ String LF EmptyString) = true
  /\ HOSTNAME_REGEX ("abc" +:+ String LF (String LF EmptyString)) = false.
Proof. repeat split; vm_compute; reflexivity. Qed.

Example parse_isoformat_ex :
  Demo.parse_isoformat "2024-03-01T12:00:00" = Some (naive Demo.noon)
  /\ Demo.parse_isoformat "2024-03-01T12:00:00.000250"
     = Some (naive (Demo.noon + 250))
  /\ Demo.parse_isoformat "2024-02-30T12:00:00" = None
  /\ Demo.parse_isoformat EmptyString = None
  /\ Demo.print_isoformat Demo.noon = "2024-03-01T12:00:00"
  /\ Demo.print_isoformat (Demo.noon + 250) = "2024-03-01T12:00:00.000250"
  /\ Demo.print_isoformat 0 = "1970-01-01T00:00:00".
Proof. repeat split; vm_compute; reflexivity. Qed.

Example endpoint_ex :
  (subdomain_finder_enhanced Demo.env (Some " Example.COM ") Demo.fresh_world).1
  = (BReport
       {| domain := "example.com"; total_raw := 4; total_clean := 3;
          subdomains :=
            [ {| host := "*.example.com"; wildcard := true; resolves := false;
                 records := []; confidence := medium |};
              {| host := "mail.example.com"; wildcard := false;
                 resolves := true; records := [A; CNAME];
                 confidence := high |};
              {| host := "www.example.com"; wildcard := false;
                 resolves := true; records := [A]; confidence := high |} ] |},
     200%nat).
Proof. vm_compute. reflexivity. Qed.

(** ** Facts about the string primitives *)

Section StringFacts.

Local Open Scope nat_scope.

Lemma append_nil_l s : EmptyString +:+ s = s.
Proof. reflexivity. Qed.

Lemma append_cons c s t : String c s +:+ t = String c (s +:+ t).
Proof. reflexivity. Qed.

Lemma append_nil_r s : s +:+ EmptyString = s.
Proof.
  induction s as [|c s IH]; [reflexivity|].
  rewrite append_cons, IH. reflexivity.
Qed.

Lemma append_assoc s1 s2 s3 : (s1 +:+ s2) +:+ s3 = s1 +:+ (s2 +:+ s3).
Proof.
  induction s1 as [|c s1 IH]; [reflexivity|].
  rewrite !append_cons, IH. reflexivity.
Qed.

Lemma length_append s1 s2 :
  String.length (s1 +:+ s2) = String.length s1 + String.length s2.
Proof.
  induction s1 as [|c s1 IH]; [reflexivity|].
  rewrite append_cons. simpl. rewrite IH. reflexivity.
Qed.

Lemma startswith_spec s p : PyStr.startswith s p = true <-> starts_with s p.
Proof.
  revert s. induction p as [|a p IH]; intros s; simpl.
  - split; [intros _; exists s; reflexivity | reflexivity].
  - destruct s as [|b s].
    + split; [discriminate | intros [r Hr]; discriminate].
    + rewrite andb_true_iff, Ascii.eqb_eq, IH. split.
      * intros [-> [r ->]]. exists r. reflexivity.
      * intros [r Hr]. rewrite append_cons in Hr. injection Hr as -> ->.
        split; [reflexivity | exists r; reflexivity].
Qed.

Lemma drop_append p s : PyStr.drop (String.length p) (p +:+ s) = s.
Proof.
  induction p as [|c p IH]; [reflexivity|].
  rewrite append_cons. simpl. exact IH.
Qed.

Lemma drop_split n s :
  n <= String.length s ->
  exists p, s = p +:+ PyStr.drop n s /\ String.length p = n.
Proof.
  revert s. induction n as [|n IH]; intros s Hn.
  - exists EmptyString. split; reflexivity.
  - destruct s as [|c s]; simpl in *; [lia|].
    destruct (IH s) as [p [Hp Hl]]; [lia|].
    exists (String c p). rewrite append_cons. simpl. split; congruence.
Qed.

Lemma endswith_spec s suf : PyStr.endswith s suf = true <-> ends_with s suf.
Proof.
  unfold PyStr.endswith, ends_with.
  rewrite andb_true_iff, Nat.leb_le, String.eqb_eq. split.
  - intros [Hle Heq].
    destruct (drop_split (String.length s - String.length suf) s)
      as [p [Hp _]]; [lia|].
    exists p. congruence.
  - intros [p ->]. rewrite length_append. split; [lia|].
    replace (String.length p + String.length suf - String.length suf)
      with (String.length p) by lia.
    apply drop_append.
Qed.

Lemma lower_char_idem c :
  PyStr.lower_char (PyStr.lower_char c) = PyStr.lower_char c.
Proof. destruct c as [[] [] [] [] [] [] [] []]; reflexivity. Qed.

Lemma lowercase_all_chars s :
  lowercase s <-> PyStr.all_chars is_lower_char s = true.
Proof.
  unfold lowercase. induction s as [|c s IH]; simpl.
  - split; reflexivity.
  - rewrite andb_true_iff, <- IH. unfold is_lower_char.
    rewrite Ascii.eqb_eq. split.
    + intros H. injection H as H1 H2. split; assumption.
    + intros [H1 H2]. congruence.
Qed.

Lemma lower_lowercase s : lowercase (PyStr.lower s).
Proof.
  unfold lowercase. induction s as [|c s IH]; simpl; [reflexivity|].
  rewrite lower_char_idem, IH. reflexivity.
Qed.

Variable P : ascii -> bool.

Lemma all_chars_lstrip q s :
  PyStr.all_chars P s = true ->
  PyStr.all_chars P (PyStr.lstrip_with q s) = true.
Proof.
  induction s as [|c s IH]; simpl; [reflexivity|].
  intros H. destruct (q c); [|exact H].
  apply andb_true_iff in H as [_ H]. auto.
Qed.

Lemma all_chars_rstrip q s :
  PyStr.all_chars P s = true ->
  PyStr.all_chars P (PyStr.rstrip_with q s) = true.
Proof.
  induction s as [|c s IH]; simpl; [reflexivity|].
  intros H. apply andb_true_iff in H as [Hc Hs]. specialize (IH Hs).
  destruct (PyStr.rstrip_with q s) as [|d r].
  - destruct (q c); simpl; [reflexivity | rewrite Hc; reflexivity].
  - simpl in *. rewrite Hc. exact IH.
Qed.

Lemma all_chars_strip s :
  PyStr.all_chars P s = true -> PyStr.all_chars P (PyStr.strip s) = true.
Proof. intros H. apply all_chars_rstrip, all_chars_lstrip, H. Qed.

Lemma all_chars_split_head sep s :
  PyStr.all_chars P s = true ->
  PyStr.all_chars P (PyStr.split_head sep s) = true.
Proof.
  induction s as [|c s IH]; simpl; [reflexivity|].
  intros H. apply andb_true_iff in H as [Hc Hs].
  destruct (Ascii.eqb c sep); simpl; [reflexivity|].
  rewrite Hc. auto.
Qed.

Lemma all_chars_remove_from old skip s :
  PyStr.all_chars P s = true ->
  PyStr.all_chars P (PyStr.remove_from old skip s) = true.
Proof.
  revert skip. induction s as [|c s IH]; intros skip H; [reflexivity|].
  cbn [PyStr.all_chars] in H. apply andb_true_iff in H as [Hc Hs].
  cbn [PyStr.remove_from]. destruct skip as [|k]; [|apply IH, Hs].
  destruct (PyStr.startswith (String c s) old); [apply IH, Hs|].
  cbn [PyStr.all_chars]. rewrite Hc. apply IH, Hs.
Qed.

End StringFacts.

(** ** Confidence scoring *)

Lemma split_head_of_split sep s :
  exists t, PyStr.split sep s = PyStr.split_head sep s :: t.
Proof.
  induction s as [|c s [t IH]]; simpl.
  - exists []. reflexivity.
  - destruct (Ascii.eqb c sep).
    + eexists. reflexivity.
    + rewrite IH. eexists. reflexivity.
Qed.

(** The first label is the longest dot-free prefix of the host. *)
Lemma split_head_prefix sep s :
  exists rest,
    s = PyStr.split_head sep s +:+ rest
    /\ PyStr.all_chars (fun c => negb (Ascii.eqb c sep))
         (PyStr.split_head sep s) = true
    /\ (rest = EmptyString \/ exists r, rest = String sep r).
Proof.
  induction s as [|c s [rest [H1 [H2 H3]]]]; simpl.
  - exists EmptyString. repeat split; auto.
  - destruct (Ascii.eqb c sep) eqn:Hc.
    + apply Ascii.eqb_eq in Hc as ->. exists (String sep s).
      repeat split; eauto.
    + exists rest. rewrite append_cons, <- H1. simpl. rewrite Hc.
      repeat split; auto.
Qed.

(** C4: the confidence scorer is the pure function that answers
    ["medium"] for a host that starts with ["*."], else ["high"] when the
    host resolves, else ["low"] when the first dot-separated label of the
    host is a non-empty run of digits, else ["medium"]. *)
Theorem calculate_confidence_cases (resolves_ : bool) (hostname : string) :
  calculate_confidence resolves_ hostname
  = if PyStr.startswith hostname "*." then medium
    else if resolves_ then high
    else if PyStr.isdigit (PyStr.split_head "." hostname) then low
    else medium.
Proof.
  unfold calculate_confidence.
  destruct (split_head_of_split "." hostname) as [t ->].
  reflexivity.
Qed.

Example calculate_confidence_ex :
  calculate_confidence false "*.example.com" = medium
  /\ calculate_confidence true "*.example.com" = medium
  /\ calculate_confidence true "123.example.com" = high
  /\ calculate_confidence false "123.example.com" = low
  /\ calculate_confidence false "12a.example.com" = medium
  /\ calculate_confidence false ".example.com" = medium
  /\ calculate_confidence false "www.example.com" = medium.
Proof. repeat split; reflexivity. Qed.

(** ** DNS verification *)

(** C3: for a host that does not start with ["*."], [verify_dns] always
    returns; [resolves] is true exactly when one of the attempts A, AAAA,
    CNAME succeeded, and [records] lists the types whose attempt
    succeeded, in attempt order and without repetition. *)
Theorem verify_dns_attempts (E : Env) (hostname : string) (w : World) :
  PyStr.startswith hostname "*." = false ->
  let result := (verify_dns E hostname w).1 in
  (result.1 = true <-> exists rtype, attempt_succeeds E hostname rtype = true)
  /\ result.2 = List.filter (attempt_succeeds E hostname) attempts
  /\ NoDup result.2.
Proof.
  intros Hw. unfold verify_dns, attempt_succeeds, attempts. rewrite Hw.
  destruct (resolver_available E); simpl.
  2:{ split; [|split; [reflexivity | constructor]].
      split; [discriminate | intros [rt Hrt]; discriminate]. }
  unfold bind, try_resolve, emit, ret, bind. simpl.
  destruct (resolve E hostname A) eqn:Ha,
           (resolve E hostname AAAA) eqn:Hb,
           (resolve E hostname CNAME) eqn:Hc; simpl;
    rewrite ?Ha, ?Hb, ?Hc; simpl;
    (split; [split; [intros H; try discriminate H;
                     first [ exists A; assumption | exists AAAA; assumption
                           | exists CNAME; assumption ]
                    | intros [[] Hrt]; congruence]
            | split; [reflexivity|] ]);
    apply (bool_decide_unpack _); reflexivity.
Qed.

Lemma verify_dns_attempts_witness :
  (verify_dns Demo.env "mail.example.com" Demo.fresh_world).1.2 = [A; CNAME].
Proof.
  pose proof (verify_dns_attempts Demo.env "mail.example.com"
                Demo.fresh_world eq_refl) as [_ [H _]].
  rewrite H. reflexivity.
Defined.

(** The trace of a verification: the three queries, in attempt order,
    when a resolver could be built, and nothing else. *)
Lemma verify_dns_trace (E : Env) (hostname : string) (w : World) :
  PyStr.startswith hostname "*." = false ->
  let w' := (verify_dns E hostname w).2 in
  cache_file w' = cache_file w /\ clock_reads w' = clock_reads w
  /\ trace w' = trace w ++
       (if resolver_available E
        then EvResolve hostname <$> attempts else []).
Proof.
  intros Hw. unfold verify_dns, attempts. rewrite Hw.
  destruct (resolver_available E); simpl.
  2:{ rewrite app_nil_r. auto. }
  unfold bind, try_resolve, emit, ret, bind. simpl.
  destruct (resolve E hostname A), (resolve E hostname AAAA),
    (resolve E hostname CNAME); simpl;
    rewrite <- !app_assoc; auto.
Qed.

(** C2: a candidate whose host starts with ["*."] comes back from
    verification with [resolves] false, no records and confidence
    ["medium"], whatever the resolver would answer, and the world is
    left as it was: no query is issued. *)
Theorem wildcard_not_verified (E : Env) (c : SubdomainInfo) (w : World) :
  PyStr.startswith (host c) "*." = true ->
  verify_dns E (host c) w = ((false, []), w)
  /\ (forall resolves_, calculate_confidence resolves_ (host c) = medium)
  /\ verify_one E c w
     = ({| host := host c; wildcard := wildcard c; resolves := false;
           records := []; confidence := medium |}, w).
Proof.
  intros Hw. unfold verify_one, bind, verify_dns, calculate_confidence.
  rewrite Hw. auto.
Qed.

Lemma wildcard_not_verified_witness :
  verify_one Demo.env (new_candidate "*.example.com" true) Demo.fresh_world
  = (new_candidate "*.example.com" true, Demo.fresh_world).
Proof.
  exact (proj2 (proj2 (wildcard_not_verified Demo.env
                         (new_candidate "*.example.com" true)
                         Demo.fresh_world eq_refl))).
Defined.

(** ** Cache freshness *)

(** C5: an entry whose timestamp parses to the naive instant [T] is
    fresh at [T + 23h59m] and stale at [T + 24h01m]; it is fresh exactly
    when less than 24 hours have elapsed at the reading of the clock. *)
Theorem is_cache_valid_boundary (E : Env) (timestamp_str : string) (T : Z)
  (w : World) :
  fromisoformat E timestamp_str = Some (naive T) ->
  let now := clock E (clock_reads w) in
  let fresh := (is_cache_valid E timestamp_str w).1 in
  (now = (T + timedelta_hours 23 + timedelta_minutes 59)%Z -> fresh = true)
  /\ (now = (T + timedelta_hours 24 + timedelta_minutes 1)%Z -> fresh = false)
  /\ (fresh = true <-> (now - T < timedelta_hours 24)%Z).
Proof.
  intros Hp. unfold is_cache_valid. rewrite Hp.
  unfold bind, datetime_now, ret, CACHE_DURATION_HOURS,
    timedelta_hours, timedelta_minutes. simpl.
  split; [|split].
  - intros ->. apply Z.ltb_lt. lia.
  - intros ->. apply Z.ltb_ge. lia.
  - apply Z.ltb_lt.
Qed.

Lemma is_cache_valid_boundary_witness :
  (is_cache_valid Demo.env "2024-02-29T12:01:00" (world_at 0)).1 = true
  /\ (is_cache_valid Demo.env "2024-02-29T12:01:00" (world_at 120)).1 = false.
Proof.
  split.
  - exact (proj1 (is_cache_valid_boundary Demo.env "2024-02-29T12:01:00"
                    (Demo.noon - 86340000000)%Z (world_at 0) eq_refl)
             eq_refl).
  - exact (proj1 (proj2 (is_cache_valid_boundary Demo.env
                           "2024-02-29T12:01:00"
                           (Demo.noon - 86340000000)%Z (world_at 120) eq_refl))
             eq_refl).
Defined.

(** ** Candidate extraction *)

Lemma append_eq_nil s t :
  s +:+ t = EmptyString -> s = EmptyString /\ t = EmptyString.
Proof. destruct s; [auto | rewrite append_cons; discriminate]. Qed.

(** What [rstrip] leaves never ends with a stripped character. *)
Lemma rstrip_with_last q s p c :
  PyStr.rstrip_with q s = p +:+ String c EmptyString -> q c = false.
Proof.
  revert p. induction s as [|a s IH]; intros p; simpl.
  - intros H. symmetry in H. apply append_eq_nil in H as [_ H]. discriminate.
  - destruct (PyStr.rstrip_with q s) as [|d r] eqn:Hr.
    + destruct (q a) eqn:Hq.
      * intros H. symmetry in H. apply append_eq_nil in H as [_ H].
        discriminate.
      * destruct p as [|b p].
        -- rewrite append_nil_l. intros H. congruence.
        -- rewrite append_cons. intros H. injection H as _ H.
           symmetry in H. apply append_eq_nil in H as [_ H]. discriminate.
    + destruct p as [|b p].
      * rewrite append_nil_l. intros H. discriminate.
      * rewrite append_cons. intros H. injection H as _ H.
        apply (IH p). exact H.
Qed.

Lemma rstrip_dot_no_trailing_dot s : ~ ends_with (PyStr.rstrip_dot s) ".".
Proof.
  intros [p Hp]. apply rstrip_with_last in Hp. discriminate.
Qed.

(** The normal form of a line, as the extractor computes it. *)
Lemma normalized_lowercase line :
  lowercase (PyStr.rstrip_dot (PyStr.strip (PyStr.lower line))).
Proof.
  apply lowercase_all_chars, all_chars_rstrip, all_chars_strip.
  apply lowercase_all_chars, lower_lowercase.
Qed.

Lemma new_candidate_ok line :
  let k := PyStr.rstrip_dot (PyStr.strip (PyStr.lower line)) in
  candidate_ok k (new_candidate k (PyStr.startswith k "*.")).
Proof.
  intros k. unfold candidate_ok, new_candidate.
  cbn [host wildcard resolves records confidence].
  split; [reflexivity|]. split; [apply normalized_lowercase|].
  split; [apply rstrip_dot_no_trailing_dot|].
  split; [apply startswith_spec|]. auto.
Qed.

(** A checked name lies within the domain, with its wildcard prefix. *)
Lemma checked_within d k :
  let checked := if PyStr.startswith k "*." then PyStr.drop 2 k else k in
  negb (String.eqb checked d) && negb (PyStr.endswith checked ("." +:+ d))
  = false ->
  within d k.
Proof.
  intros checked H.
  assert (Hc : within d checked).
  { apply andb_false_iff in H as [H|H]; apply negb_false_iff in H.
    - left. apply String.eqb_eq, H.
    - right. apply endswith_spec, H. }
  subst checked. destruct (PyStr.startswith k "*.") eqn:Hw; [|exact Hc].
  apply startswith_spec in Hw as [r ->].
  change (PyStr.drop 2 ("*." +:+ r)) with r in Hc.
  right. destruct Hc as [->|[p ->]].
  - exists "*"%string. reflexivity.
  - exists ("*." +:+ p). rewrite append_assoc. reflexivity.
Qed.

Lemma clean_line_cases d st line0 :
  (clean_line d st line0).2 = st.2
  \/ exists line,
       let k := PyStr.rstrip_dot (PyStr.strip (PyStr.lower line)) in
       st.2 !! k = None /\ within (PyStr.lower d) k
       /\ (clean_line d st line0).2
          = <[ k := new_candidate k (PyStr.startswith k "*.") ]> st.2.
Proof.
  unfold clean_line.
  destruct (String.eqb (PyStr.strip line0) EmptyString); [left; reflexivity|].
  destruct (_ || _ || _); [left; reflexivity|].
  set (k := PyStr.rstrip_dot (PyStr.strip (PyStr.lower (PyStr.strip line0)))).
  destruct (negb (HOSTNAME_REGEX _)); [left; reflexivity|].
  destruct (negb (String.eqb _ _) && negb (PyStr.endswith _ _)) eqn:Hin;
    [left; reflexivity|].
  destruct (st.2 !! k) eqn:Hk; [left; reflexivity|].
  right. exists (PyStr.strip line0). fold k. simpl.
  split; [exact Hk|]. split; [|reflexivity].
  apply checked_within, Hin.
Qed.

Lemma clean_line_ok d st line0 :
  cleaned_ok d st.2 -> cleaned_ok d (clean_line d st line0).2.
Proof.
  intros Hm. destruct (clean_line_cases d st line0) as [->|[line [_ [Hin ->]]]];
    [exact Hm|].
  apply map_Forall_insert_2; [|exact Hm].
  split; [apply new_candidate_ok | exact Hin].
Qed.

(** An entry, once stored, is never replaced. *)
Lemma clean_line_keeps d st line0 k c :
  st.2 !! k = Some c -> (clean_line d st line0).2 !! k = Some c.
Proof.
  intros Hk. destruct (clean_line_cases d st line0) as [->|[line [Hn [_ ->]]]];
    [exact Hk|].
  rewrite lookup_insert_ne; [exact Hk|]. intros <-. congruence.
Qed.

Lemma clean_entry_ok d st entry :
  cleaned_ok d st.2 -> cleaned_ok d (clean_entry d st entry).2.
Proof.
  unfold clean_entry. destruct (String.eqb _ _); [auto|].
  generalize (PyStr.split LF (PyStr.strip (default EmptyString (name_value entry)))).
  intros lines. revert st.
  induction lines as [|l lines IH]; intros st Hst; simpl; [exact Hst|].
  apply IH, clean_line_ok, Hst.
Qed.

Lemma clean_entry_keeps d st entry k c :
  st.2 !! k = Some c -> (clean_entry d st entry).2 !! k = Some c.
Proof.
  unfold clean_entry. destruct (String.eqb _ _); [auto|].
  generalize (PyStr.split LF (PyStr.strip (default EmptyString (name_value entry)))).
  intros lines. revert st.
  induction lines as [|l lines IH]; intros st Hst; simpl; [exact Hst|].
  apply IH, clean_line_keeps, Hst.
Qed.

Lemma extract_state_ok raw_data d : cleaned_ok d (extract_state raw_data d).2.
Proof.
  unfold extract_state.
  assert (H0 : cleaned_ok d ((∅, ∅) : ExtractState).2) by apply map_Forall_empty.
  revert H0. generalize ((∅, ∅) : ExtractState).
  induction raw_data as [|e raw IH]; intros st Hst; simpl; [exact Hst|].
  apply IH, clean_entry_ok, Hst.
Qed.

Lemma extract_state_keeps raw_data more d k c :
  (extract_state raw_data d).2 !! k = Some c ->
  (extract_state (raw_data ++ more) d).2 !! k = Some c.
Proof.
  unfold extract_state. rewrite foldl_app.
  generalize (foldl (clean_entry d) (∅, ∅) raw_data). intros st.
  revert st. induction more as [|e more IH]; intros st Hst; simpl; [exact Hst|].
  apply IH, clean_entry_keeps, Hst.
Qed.

(** C10: under every key of the candidate map lies a candidate whose
    host is that key, lower-case and without a trailing dot, and whose
    wildcard flag is set exactly when the host starts with ["*."]; the
    entry of a host is fixed by its first occurrence: it is still there
    after any further crt.sh rows are processed. *)
Theorem extract_candidates_ok (raw_data : list Entry) (domain_ : string)
  (k : string) (c : SubdomainInfo) :
  (extract_and_clean_subdomains raw_data domain_).2 !! k = Some c ->
  candidate_ok k c
  /\ forall more,
       (extract_and_clean_subdomains (raw_data ++ more) domain_).2 !! k
       = Some c.
Proof.
  unfold extract_and_clean_subdomains; simpl. intros Hk. split.
  - apply (extract_state_ok raw_data domain_ k c Hk).
  - intros more. apply extract_state_keeps, Hk.
Qed.

Lemma extract_candidates_ok_witness :
  candidate_ok "*.example.com" (new_candidate "*.example.com" true).
Proof.
  exact (proj1 (extract_candidates_ok scenario_raw "example.com"
                  "*.example.com" (new_candidate "*.example.com" true)
                  ltac:(vm_compute; reflexivity))).
Defined.

(** ** What [total_raw] counts *)

Lemma clean_line_raw d st line0 :
  (clean_line d st line0).1
  = if String.eqb (PyStr.strip line0) EmptyString then st.1
    else {[ PyStr.strip line0 ]} ∪ st.1.
Proof.
  unfold clean_line.
  destruct (String.eqb (PyStr.strip line0) EmptyString); [reflexivity|].
  destruct (_ || _ || _); [reflexivity|].
  destruct (negb (HOSTNAME_REGEX _)); [reflexivity|].
  destruct (negb (String.eqb _ _) && negb (PyStr.endswith _ _)); [reflexivity|].
  destruct (st.2 !! _); reflexivity.
Qed.

Lemma clean_lines_raw d lines st :
  (foldl (clean_line d) st lines).1
  = list_to_set
      (List.filter (fun l => negb (String.eqb l EmptyString))
         (PyStr.strip <$> lines)) ∪ st.1.
Proof.
  revert st. induction lines as [|l lines IH]; intros st; simpl.
  - set_solver.
  - rewrite IH, clean_line_raw.
    destruct (String.eqb (PyStr.strip l) EmptyString); simpl; set_solver.
Qed.

Lemma clean_entry_raw d st e :
  (clean_entry d st e).1 = list_to_set (entry_lines e) ∪ st.1.
Proof.
  unfold clean_entry, entry_lines.
  destruct (String.eqb _ EmptyString) eqn:He.
  - apply String.eqb_eq in He. rewrite He. simpl. set_solver.
  - apply clean_lines_raw.
Qed.

(** [total_raw] is the number of distinct non-empty lines of the
    payload, whatever the filters do with them afterwards. *)
Lemma total_raw_counts_lines raw_data d :
  (extract_state raw_data d).1 = list_to_set (raw_lines raw_data)
  /\ (extract_and_clean_subdomains raw_data d).1
     = size (list_to_set (raw_lines raw_data) : gset string).
Proof.
  assert (H : forall st, (foldl (clean_entry d) st raw_data).1
                    = list_to_set (raw_lines raw_data) ∪ st.1).
  { unfold raw_lines. induction raw_data as [|e raw IH]; intros st; simpl.
    - set_solver.
    - rewrite IH, clean_entry_raw, list_to_set_app_L. set_solver. }
  unfold extract_and_clean_subdomains, extract_state. simpl.
  rewrite H. simpl. rewrite (right_id_L ∅ (∪)). auto.
Qed.

(** ** The end-to-end scenario *)

(** C1 as stated does not hold: on the scenario payload the extractor
    does not report [total_raw = 3] together with the three clean keys. *)
Lemma scenario_total_raw_is_not_3 :
  ~ ((extract_and_clean_subdomains scenario_raw "example.com").1 = 3%nat
     /\ dom (extract_and_clean_subdomains scenario_raw "example.com").2
        = ({[ "www.example.com"; "mail.example.com"; "*.example.com" ]}
           : gset string)).
Proof. intros [H _]. vm_compute in H. discriminate H. Qed.

(** C1, amended: on the scenario payload for [example.com] the set of
    non-empty lines seen before filtering holds the four lines of the
    three rows, so [total_raw] is 4, its size; the candidate map has
    exactly the keys [www.example.com], [mail.example.com] and
    [*.example.com], the line with spaces being discarded. *)
Theorem scenario_extraction :
  (extract_state scenario_raw "example.com").1
  = ({[ "www.example.com"; "mail.example.com"; "bad entry with space";
        "*.example.com" ]} : gset string)
  /\ (extract_and_clean_subdomains scenario_raw "example.com").1
     = size (extract_state scenario_raw "example.com").1
  /\ (extract_and_clean_subdomains scenario_raw "example.com").1 = 4%nat
  /\ dom (extract_and_clean_subdomains scenario_raw "example.com").2
     = ({[ "www.example.com"; "mail.example.com"; "*.example.com" ]}
        : gset string).
Proof. repeat split; vm_compute; reflexivity. Qed.

(** ** Sorting *)

Section SortBy.

Context {X : Type} (le : X -> X -> bool).
Hypothesis le_total : forall x y, le x y = true \/ le y x = true.

Lemma insert_by_Permutation x l : insert_by le x l ≡ₚ x :: l.
Proof.
  induction l as [|y l IH]; simpl; [reflexivity|].
  destruct (le x y); [reflexivity|].
  rewrite IH. apply Permutation_swap.
Qed.

Lemma sort_by_Permutation l : sort_by le l ≡ₚ l.
Proof.
  induction l as [|x l IH]; simpl; [reflexivity|].
  rewrite insert_by_Permutation. constructor. exact IH.
Qed.

Lemma insert_by_HdRel y x l :
  holds le y x -> HdRel (holds le) y l -> HdRel (holds le) y (insert_by le x l).
Proof.
  intros Hyx Hl. destruct l as [|z l]; simpl.
  - constructor. exact Hyx.
  - destruct (le x z); constructor; [exact Hyx|].
    inversion Hl; assumption.
Qed.

Lemma insert_by_Sorted x l : Sorted (holds le) l -> Sorted (holds le) (insert_by le x l).
Proof.
  induction l as [|y l IH]; intros Hs; simpl.
  - repeat constructor.
  - inversion Hs as [|? ? Hl Hy]; subst.
    destruct (le x y) eqn:Hxy.
    + constructor; [exact Hs|]. constructor. exact Hxy.
    + constructor; [apply IH, Hl|].
      apply insert_by_HdRel; [|exact Hy].
      destruct (le_total x y) as [H|H]; [congruence | exact H].
Qed.

Lemma sort_by_Sorted l : Sorted (holds le) (sort_by le l).
Proof.
  induction l as [|x l IH]; simpl; [constructor|].
  apply insert_by_Sorted, IH.
Qed.

End SortBy.

Lemma host_le_total x y : host_le x y = true \/ host_le y x = true.
Proof. apply String.leb_total. Qed.

Lemma sort_by_host_Sorted l : Sorted host_leq (sort_by host_le l).
Proof. exact (sort_by_Sorted host_le host_le_total l). Qed.

(** On lower-case hosts the order that ignores case is the plain one. *)
Lemma Sorted_nocase l :
  Forall (fun x => lowercase (host x)) l ->
  Sorted host_leq l -> Sorted host_leq_nocase l.
Proof.
  intros Hl Hs. induction Hs as [|x l Hs IH Hd]; [constructor|].
  apply Forall_cons in Hl as [Hx Hl]. constructor; [apply IH, Hl|].
  destruct Hd as [|y l Hxy]; constructor.
  apply Forall_cons in Hl as [Hy _].
  unfold host_leq_nocase. rewrite Hx, Hy. exact Hxy.
Qed.

(** ** What verification does to the world *)

Lemma only_queries_refl w : only_queries w w.
Proof.
  repeat split. exists []. rewrite app_nil_r. split; [reflexivity | constructor].
Qed.

Lemma only_queries_trans w1 w2 w3 :
  only_queries w1 w2 -> only_queries w2 w3 -> only_queries w1 w3.
Proof.
  intros (Hc1 & Hr1 & q1 & Ht1 & Hq1) (Hc2 & Hr2 & q2 & Ht2 & Hq2).
  split; [congruence|]. split; [congruence|].
  exists (q1 ++ q2). split.
  - rewrite Ht2, Ht1, app_assoc. reflexivity.
  - apply Forall_app. split; assumption.
Qed.

Lemma verify_dns_only_queries E hostname w :
  only_queries w (verify_dns E hostname w).2.
Proof.
  destruct (PyStr.startswith hostname "*.") eqn:Hw.
  - unfold verify_dns. rewrite Hw. apply only_queries_refl.
  - destruct (verify_dns_trace E hostname w Hw) as (Hc & Hr & Ht).
    split; [exact Hc|]. split; [exact Hr|].
    eexists. split; [exact Ht|].
    destruct (resolver_available E); [|constructor].
    unfold attempts. repeat constructor; eauto.
Qed.

Lemma verify_one_host E c w : host (verify_one E c w).1 = host c.
Proof.
  unfold verify_one, bind.
  destruct (verify_dns E (host c) w) as [[r recs] w']. reflexivity.
Qed.

Lemma verify_one_only_queries E c w : only_queries w (verify_one E c w).2.
Proof.
  pose proof (verify_dns_only_queries E (host c) w) as H.
  unfold verify_one, bind.
  destruct (verify_dns E (host c) w) as [[r recs] w']. exact H.
Qed.

Lemma for_each_verify_one E l w :
  host <$> (for_each (verify_one E) l w).1 = host <$> l
  /\ only_queries w (for_each (verify_one E) l w).2.
Proof.
  revert w. induction l as [|c l IH]; intros w; simpl.
  - split; [reflexivity | apply only_queries_refl].
  - unfold bind.
    pose proof (verify_one_host E c w) as Hh.
    pose proof (verify_one_only_queries E c w) as Hq.
    destruct (verify_one E c w) as [y w1]. simpl in Hh, Hq.
    destruct (IH w1) as [IHh IHq].
    destruct (for_each (verify_one E) l w1) as [ys w2]. simpl in *.
    split; [|eapply only_queries_trans; eassumption].
    f_equal; [exact Hh | exact IHh].
Qed.

Lemma verify_all_hosts E l w :
  host <$> (verify_all E l w).1 ≡ₚ host <$> l
  /\ only_queries w (verify_all E l w).2.
Proof.
  unfold verify_all, bind.
  destruct (for_each_verify_one E l w) as [Hh Hq].
  destruct (for_each (verify_one E) l w) as [ys w1]. simpl in *.
  split; [|exact Hq].
  rewrite <- Hh. apply fmap_Permutation, sort_by_Permutation.
Qed.

(** ** The domain of a request *)

Lemma sanitize_hostname_lowercase v sd :
  sanitize_hostname v = Some sd -> lowercase sd.
Proof.
  unfold sanitize_hostname. destruct (String.eqb v EmptyString); [discriminate|].
  destruct (HOSTNAME_REGEX _); [|discriminate].
  intros H. injection H as <-.
  apply lowercase_all_chars.
  do 2 apply all_chars_split_head. do 2 apply all_chars_remove_from.
  apply lowercase_all_chars, lower_lowercase.
Qed.

Lemma clean_domain_lowercase sd : lowercase sd -> lowercase (clean_domain sd).
Proof.
  intros H. apply lowercase_all_chars. unfold clean_domain.
  do 2 apply all_chars_split_head. do 2 apply all_chars_remove_from.
  apply lowercase_all_chars, H.
Qed.

Lemma queried_domain_lowercase request_domain d :
  queried_domain request_domain = Some d -> lowercase d.
Proof.
  unfold queried_domain.
  destruct (sanitize_hostname _) as [sd|] eqn:Hs; [|discriminate].
  intros H. injection H as <-.
  eapply clean_domain_lowercase, sanitize_hostname_lowercase, Hs.
Qed.

(** ** The report of a pipeline run *)

Lemma candidate_hosts_ok raw_data d :
  lowercase d ->
  Forall (fun h => within d h /\ lowercase h)
    (host <$> (map_to_list (extract_and_clean_subdomains raw_data d).2).*2).
Proof.
  intros Hd. unfold extract_and_clean_subdomains; simpl.
  pose proof (extract_state_ok raw_data d) as Hm.
  apply Forall_fmap, Forall_fmap, Forall_forall. intros [k c] Hin.
  apply elem_of_map_to_list in Hin. destruct (Hm k c Hin) as [Hc Hw].
  destruct Hc as (Hh & Hl & _). simpl. rewrite Hh. rewrite Hd in Hw. auto.
Qed.

Lemma pipeline_report_ok E raw_data d w :
  lowercase d ->
  let vs :=
    sort_by host_le
      (verify_all E
         (map_to_list (extract_and_clean_subdomains raw_data d).2).*2 w).1 in
  report_ok {| domain := d;
               total_raw := (extract_and_clean_subdomains raw_data d).1;
               total_clean := length vs; subdomains := vs |}.
Proof.
  intros Hd vs.
  assert (Hvs : Forall (fun h => within d h /\ lowercase h) (host <$> vs)).
  { subst vs.
    rewrite (fmap_Permutation host _ _ (sort_by_Permutation host_le _)).
    rewrite (proj1 (verify_all_hosts E _ w)).
    apply candidate_hosts_ok, Hd. }
  apply Forall_fmap in Hvs.
  unfold report_ok; simpl. split; [exact Hd|].
  split; [eapply Forall_impl; [exact Hvs | intros x [H _]; exact H]|].
  split; [apply sort_by_host_Sorted|]. split; [|reflexivity].
  apply Sorted_nocase; [|apply sort_by_host_Sorted].
  eapply Forall_impl; [exact Hvs | intros x [_ H]; exact H].
Qed.

Lemma empty_report_ok d : lowercase d -> report_ok (empty_report d).
Proof.
  intros Hd. unfold report_ok, empty_report; simpl.
  split; [exact Hd|]. repeat split; constructor.
Qed.

(** ** The endpoint, path by path *)

(** A failed fetch: the zeroed report, one fetch, nothing stored. *)
Lemma run_pipeline_failed E d cache key w err :
  requests_get E (crt_url d) = inl err ->
  run_pipeline E d cache key w
  = ((BFailedReport (empty_report d)
        ("Failed to fetch from crt.sh: " +:+ err), 500%nat),
     {| cache_file := cache_file w; clock_reads := clock_reads w;
        trace := trace w ++ [EvHttpGet (crt_url d)] |}).
Proof.
  intros Hf. unfold run_pipeline, bind, emit. fold (crt_url d).
  rewrite Hf. reflexivity.
Qed.

(** A successful fetch: a well-shaped report for the domain, stored
    under the key when the cache file can be written. *)
Lemma run_pipeline_fetched E d cache key w raw_data :
  lowercase d ->
  requests_get E (crt_url d) = inr raw_data ->
  exists r ts,
    (run_pipeline E d cache key w).1 = (BReport r, 200%nat)
    /\ domain r = d /\ report_ok r
    /\ cache_file (run_pipeline E d cache key w).2
       = if cache_writable E
         then Some (<[ key := {| timestamp := Some ts; data := Some r |} ]> cache)
         else cache_file w.
Proof.
  intros Hd Hf. unfold run_pipeline, bind, emit. fold (crt_url d).
  rewrite Hf.
  set (w1 := {| cache_file := cache_file w; clock_reads := clock_reads w;
                trace := trace w ++ [EvHttpGet (crt_url d)] |}).
  pose proof (pipeline_report_ok E raw_data d w1 Hd) as Hr.
  destruct (extract_and_clean_subdomains raw_data d) as [tr cleaned].
  simpl in Hr.
  pose proof (verify_all_hosts E (map_to_list cleaned).*2 w1) as [_ Hq].
  destruct (verify_all E (map_to_list cleaned).*2 w1) as [vs w2].
  simpl in Hr, Hq. destruct Hq as (Hc & _).
  unfold datetime_now, save_cache, bind, emit, ret. simpl.
  eexists _, _. split; [reflexivity|]. split; [reflexivity|].
  split; [exact Hr|].
  destruct (cache_writable E); simpl; [reflexivity | exact Hc].
Qed.

Lemma is_cache_valid_frame E ts w :
  cache_file (is_cache_valid E ts w).2 = cache_file w
  /\ trace (is_cache_valid E ts w).2 = trace w.
Proof.
  unfold is_cache_valid, bind, datetime_now, ret.
  destruct (fromisoformat E ts) as [[t|t]|]; simpl; auto.
Qed.

(** The validity check reads the world only through its clock. *)
Lemma is_cache_valid_clock E ts w w' :
  clock_reads w' = clock_reads w ->
  (is_cache_valid E ts w').1 = (is_cache_valid E ts w).1.
Proof.
  intros Hc. unfold is_cache_valid, bind, datetime_now, ret.
  destruct (fromisoformat E ts) as [[t|t]|]; simpl; rewrite ?Hc; reflexivity.
Qed.

Lemma cache_lookup_frame E cache key w :
  cache_file (cache_lookup E cache key w).2 = cache_file w
  /\ trace (cache_lookup E cache key w).2 = trace w.
Proof.
  unfold cache_lookup. destruct (cache !! key) as [e|]; [|auto].
  unfold bind.
  pose proof (is_cache_valid_frame E (default EmptyString (timestamp e)) w) as H.
  destruct (is_cache_valid E _ w) as [[] w']; exact H.
Qed.

Lemma cache_lookup_result E cache key w :
  (cache_lookup E cache key w).1
  = match cache !! key with
    | Some e =>
        if (is_cache_valid E (default EmptyString (timestamp e)) w).1
        then Some (data e) else None
    | None => None
    end.
Proof.
  unfold cache_lookup. destruct (cache !! key) as [e|]; [|reflexivity].
  unfold bind. destruct (is_cache_valid E _ w) as [[] w']; reflexivity.
Qed.

(** The endpoint on a request it accepts. *)
Lemma endpoint_accepts E request_domain d w :
  queried_domain request_domain = Some d ->
  subdomain_finder_enhanced E request_domain w
  = (let* cache := load_cache in
     let* hit := cache_lookup E cache (cache_key_of d) in
     match hit with
     | Some (Some r) => ret (BReport r, 200%nat)
     | Some None => ret (BError "'data'", 500%nat)
     | None => run_pipeline E d cache (cache_key_of d)
     end) w.
Proof.
  unfold queried_domain, subdomain_finder_enhanced.
  destruct (String.eqb _ EmptyString) eqn:He.
  - apply String.eqb_eq in He. rewrite He. discriminate.
  - destruct (sanitize_hostname _) as [sd|]; [|discriminate].
    intros H. injection H as <-. reflexivity.
Qed.

(** The endpoint on a request it refuses: a 400, the world untouched. *)
Lemma endpoint_refuses E request_domain w :
  queried_domain request_domain = None ->
  exists msg,
    subdomain_finder_enhanced E request_domain w = ((BError msg, 400%nat), w).
Proof.
  unfold queried_domain, subdomain_finder_enhanced.
  destruct (String.eqb _ EmptyString); [eexists; reflexivity|].
  destruct (sanitize_hostname _) as [sd|]; [discriminate|].
  eexists; reflexivity.
Qed.

Lemma is_cache_valid_naive E ts T w :
  fromisoformat E ts = Some (naive T) ->
  (is_cache_valid E ts w).1
  = (clock E (clock_reads w) - T <? timedelta_hours CACHE_DURATION_HOURS)%Z.
Proof. intros Hp. unfold is_cache_valid. rewrite Hp. reflexivity. Qed.

(** On a miss the endpoint is the pipeline, run after the cache was read. *)
Lemma endpoint_miss E request_domain d w :
  queried_domain request_domain = Some d ->
  cache_miss E w d ->
  exists w1,
    cache_file w1 = cache_file w
    /\ trace w1 = trace w ++ [EvLoadCache]
    /\ subdomain_finder_enhanced E request_domain w
       = run_pipeline E d (default ∅ (cache_file w)) (cache_key_of d) w1.
Proof.
  intros Hd Hm. rewrite (endpoint_accepts E _ d w Hd).
  unfold bind at 1. unfold load_cache, bind at 1. unfold emit.
  set (w0 := {| cache_file := cache_file w; clock_reads := clock_reads w;
                trace := trace w ++ [EvLoadCache] |}).
  cbn [cache_file]. unfold bind.
  pose proof (cache_lookup_result E (default ∅ (cache_file w))
                (cache_key_of d) w0) as Hr.
  pose proof (cache_lookup_frame E (default ∅ (cache_file w))
                (cache_key_of d) w0) as [Hc Ht].
  destruct (cache_lookup E _ _ w0) as [hit w1]. simpl in Hr, Hc, Ht.
  exists w1. split; [exact Hc|]. split; [exact Ht|].
  unfold cache_miss in Hm.
  destruct (default ∅ (cache_file w) !! cache_key_of d) as [e|]; subst hit;
    [|reflexivity].
  rewrite (is_cache_valid_clock E _ w w0 eq_refl), Hm. reflexivity.
Qed.

(** On a hit the endpoint answers from the cache after reading it. *)
Lemma endpoint_hit E request_domain d e w :
  queried_domain request_domain = Some d ->
  default ∅ (cache_file w) !! cache_key_of d = Some e ->
  (is_cache_valid E (default EmptyString (timestamp e)) w).1 = true ->
  exists w1,
    cache_file w1 = cache_file w
    /\ trace w1 = trace w ++ [EvLoadCache]
    /\ subdomain_finder_enhanced E request_domain w
       = (match data e with
          | Some r => (BReport r, 200%nat)
          | None => (BError "'data'", 500%nat)
          end, w1).
Proof.
  intros Hd He Hv. rewrite (endpoint_accepts E _ d w Hd).
  unfold bind at 1. unfold load_cache, bind at 1. unfold emit.
  set (w0 := {| cache_file := cache_file w; clock_reads := clock_reads w;
                trace := trace w ++ [EvLoadCache] |}).
  cbn [cache_file]. unfold bind.
  pose proof (cache_lookup_result E (default ∅ (cache_file w))
                (cache_key_of d) w0) as Hr.
  pose proof (cache_lookup_frame E (default ∅ (cache_file w))
                (cache_key_of d) w0) as [Hc Ht].
  destruct (cache_lookup E _ _ w0) as [hit w1]. simpl in Hr, Hc, Ht.
  rewrite He, (is_cache_valid_clock E _ w w0 eq_refl), Hv in Hr. subst hit.
  exists w1. split; [exact Hc|]. split; [exact Ht|].
  destruct (data e); reflexivity.
Qed.

(** C8: when the cache holds, under the key of the queried domain, an
    entry with a report whose timestamp is less than 24 hours old, the
    endpoint answers 200 with that very report; the cache file is left
    as it was and the only effect is the reading of the cache: no crt.sh
    fetch, no DNS query, no cache write. *)
Theorem cache_hit_served (E : Env) (request_domain : option string)
  (d : string) (e : CacheEntry) (r : Report) (T : Z) (w : World) :
  queried_domain request_domain = Some d ->
  default ∅ (cache_file w) !! cache_key_of d = Some e ->
  fromisoformat E (default EmptyString (timestamp e)) = Some (naive T) ->
  (clock E (clock_reads w) - T < timedelta_hours 24)%Z ->
  data e = Some r ->
  let result := subdomain_finder_enhanced E request_domain w in
  result.1 = (BReport r, 200%nat)
  /\ cache_file result.2 = cache_file w
  /\ trace result.2 = trace w ++ [EvLoadCache].
Proof.
  intros Hd He Hp Ht Hr.
  assert (Hv : (is_cache_valid E (default EmptyString (timestamp e)) w).1 = true).
  { rewrite (is_cache_valid_naive E _ T w Hp). apply Z.ltb_lt, Ht. }
  destruct (endpoint_hit E request_domain d e w Hd He Hv) as (w1 & H1 & H2 & ->).
  rewrite Hr. auto.
Qed.

(** C7: when the request misses the cache and the crt.sh fetch fails,
    the endpoint answers 500 with the report of the domain zeroed
    ([total_raw] 0, [total_clean] 0, no subdomains) and an error
    message; the fetch is made once and the cache file is left as it
    was. *)
Theorem fetch_failure_reported (E : Env) (request_domain : option string)
  (d err : string) (w : World) :
  queried_domain request_domain = Some d ->
  cache_miss E w d ->
  requests_get E (crt_url d) = inl err ->
  let result := subdomain_finder_enhanced E request_domain w in
  result.1
  = (BFailedReport
       {| domain := d; total_raw := 0; total_clean := 0; subdomains := [] |}
       ("Failed to fetch from crt.sh: " +:+ err), 500%nat)
  /\ cache_file result.2 = cache_file w
  /\ trace result.2 = trace w ++ [EvLoadCache; EvHttpGet (crt_url d)].
Proof.
  intros Hd Hm Hf.
  destruct (endpoint_miss E request_domain d w Hd Hm) as (w1 & Hc & Ht & ->).
  rewrite (run_pipeline_failed E d _ _ w1 err Hf). simpl.
  split; [reflexivity|]. split; [exact Hc|].
  rewrite Ht, <- app_assoc. reflexivity.
Qed.

Lemma cache_hit_served_witness :
  (subdomain_finder_enhanced Demo.env (Some "EXAMPLE.com") warm_world).1
  = (subdomain_finder_enhanced Demo.env (Some "example.com") Demo.fresh_world).1
  /\ cache_file
       (subdomain_finder_enhanced Demo.env (Some "EXAMPLE.com") warm_world).2
     = cache_file warm_world.
Proof.
  pose proof (cache_hit_served Demo.env (Some "EXAMPLE.com") "example.com"
    {| timestamp := Some "2024-03-01T12:00:00";
       data := Some
         {| domain := "example.com"; total_raw := 4; total_clean := 3;
            subdomains :=
              [ new_candidate "*.example.com" true;
                {| host := "mail.example.com"; wildcard := false;
                   resolves := true; records := [A; CNAME];
                   confidence := high |};
                {| host := "www.example.com"; wildcard := false;
                   resolves := true; records := [A]; confidence := high |} ] |} |}
    _ Demo.noon warm_world
    ltac:(vm_compute; reflexivity) ltac:(vm_compute; reflexivity)
    ltac:(vm_compute; reflexivity) ltac:(vm_compute; reflexivity)
    eq_refl) as (H1 & H2 & _).
  split; [rewrite H1; vm_compute; reflexivity | exact H2].
Defined.

Lemma fetch_failure_reported_witness :
  (subdomain_finder_enhanced Demo.env (Some "example.org") Demo.fresh_world).1
  = (BFailedReport
       {| domain := "example.org"; total_raw := 0; total_clean := 0;
          subdomains := [] |}
       "Failed to fetch from crt.sh: 503 Server Error: Service Unavailable",
     500%nat).
Proof.
  exact (proj1 (fetch_failure_reported Demo.env (Some "example.org")
                  "example.org" "503 Server Error: Service Unavailable"
                  Demo.fresh_world
                  ltac:(vm_compute; reflexivity) ltac:(vm_compute; exact I)
                  ltac:(vm_compute; reflexivity))).
Defined.

(** ** The cache invariant *)

Lemma append_inv_l p s t : p +:+ s = p +:+ t -> s = t.
Proof.
  induction p as [|c p IH]; [auto|].
  rewrite !append_cons. intros H. injection H as H. auto.
Qed.

Lemma cache_ok_empty : cache_ok ∅.
Proof. intros key e r H. rewrite lookup_empty in H. discriminate. Qed.

Lemma cache_ok_insert cache e r :
  cache_ok cache -> data e = Some r -> report_ok r ->
  cache_ok (<[ cache_key_of (domain r) := e ]> cache).
Proof.
  intros Hc He Hr key e' r' Hk Hd.
  destruct (decide (cache_key_of (domain r) = key)) as [<-|Hne].
  - rewrite lookup_insert_eq in Hk. injection Hk as <-.
    rewrite He in Hd. injection Hd as <-. auto.
  - rewrite lookup_insert_ne in Hk by exact Hne. eapply Hc; eassumption.
Qed.

(** One request keeps the cache well-shaped and answers with a
    well-shaped report of the queried domain. *)
Lemma endpoint_invariant E request_domain w :
  cache_ok (default ∅ (cache_file w)) ->
  let result := subdomain_finder_enhanced E request_domain w in
  cache_ok (default ∅ (cache_file result.2))
  /\ forall r, returned_report result.1 = Some r ->
       queried_domain request_domain = Some (domain r) /\ report_ok r.
Proof.
  intros Hok result. subst result.
  destruct (queried_domain request_domain) as [d|] eqn:Hd.
  2:{ destruct (endpoint_refuses E request_domain w Hd) as [msg ->].
      split; [exact Hok | discriminate]. }
  pose proof (queried_domain_lowercase _ _ Hd) as Hl.
  destruct (default ∅ (cache_file w) !! cache_key_of d) as [e|] eqn:He.
  1: destruct (is_cache_valid E (default EmptyString (timestamp e)) w).1 eqn:Hv.
  1:{ destruct (endpoint_hit E request_domain d e w Hd He Hv)
        as (w1 & Hc & _ & ->).
      simpl. rewrite Hc. split; [exact Hok|].
      destruct (data e) as [r|] eqn:Hr; [|discriminate].
      intros r' H. injection H as <-.
      destruct (Hok _ _ _ He Hr) as [Hk Hrok]. split; [|exact Hrok].
      apply append_inv_l in Hk. congruence. }
  all: assert (Hm : cache_miss E w d)
    by (unfold cache_miss; rewrite He; auto).
  all: destruct (endpoint_miss E request_domain d w Hd Hm)
    as (w1 & Hc & _ & ->).
  all: destruct (requests_get E (crt_url d)) as [err|raw_data] eqn:Hf.
  all: try (rewrite (run_pipeline_failed E d _ _ w1 err Hf); simpl;
            rewrite Hc; split; [exact Hok|];
            intros r H; injection H as <-; split;
            [reflexivity | apply empty_report_ok, Hl]).
  all: destruct (run_pipeline_fetched E d (default ∅ (cache_file w))
                   (cache_key_of d) w1 raw_data Hl Hf)
    as (r & ts & Hres & Hdom & Hrok & Hcf).
  all: rewrite Hres, Hcf; split;
    [ destruct (cache_writable E);
      [ simpl; rewrite <- Hdom; apply cache_ok_insert; auto
      | rewrite Hc; exact Hok ]
    | intros r' H; injection H as <-; rewrite Hdom; auto ].
Qed.

Lemma reachable_cache_ok w : reachable w -> cache_ok (default ∅ (cache_file w)).
Proof.
  induction 1 as [n t|E request_domain w Hw IH].
  - apply cache_ok_empty.
  - apply (endpoint_invariant E request_domain w IH).
Qed.

Lemma endpoint_report_ok E request_domain w r :
  reachable w ->
  returned_report (subdomain_finder_enhanced E request_domain w).1 = Some r ->
  queried_domain request_domain = Some (domain r) /\ report_ok r.
Proof.
  intros Hw. apply (endpoint_invariant E request_domain w), reachable_cache_ok, Hw.
Qed.

(** C6: in every report the endpoint returns, the domain is the queried
    one and every host of the subdomains list either equals that domain
    or ends with ["."] followed by it, the leading ["*."] of a wildcard
    host included in the host. *)
Theorem returned_hosts_within (E : Env) (request_domain : option string)
  (w : World) (r : Report) :
  reachable w ->
  returned_report (subdomain_finder_enhanced E request_domain w).1 = Some r ->
  queried_domain request_domain = Some (domain r)
  /\ forall x, x ∈ subdomains r ->
       host x = domain r \/ ends_with (host x) ("." +:+ domain r).
Proof.
  intros Hw Hr.
  destruct (endpoint_report_ok E request_domain w r Hw Hr) as [Hd Hok].
  split; [exact Hd|]. destruct Hok as (_ & Hin & _).
  intros x Hx. exact (proj1 (Forall_forall _ _) Hin x Hx).
Qed.

(** C9: in every report the endpoint returns, the subdomains list is in
    non-decreasing order of host, compared by code point with case
    ignored, and [total_clean] is the length of that list. *)
Theorem returned_report_sorted (E : Env) (request_domain : option string)
  (w : World) (r : Report) :
  reachable w ->
  returned_report (subdomain_finder_enhanced E request_domain w).1 = Some r ->
  Sorted host_leq_nocase (subdomains r)
  /\ total_clean r = length (subdomains r).
Proof.
  intros Hw Hr.
  destruct (endpoint_report_ok E request_domain w r Hw Hr)
    as [_ (_ & _ & _ & Hs & Hn)].
  auto.
Qed.

Lemma returned_hosts_within_witness :
  queried_domain (Some "Example.com") = Some "example.com"
  /\ ("*.example.com" = "example.com"
      \/ ends_with "*.example.com" ("." +:+ "example.com")).
Proof.
  destruct (returned_hosts_within Demo.env (Some "Example.com") warm_world
              demo_report
              (reachable_request Demo.env (Some "example.com")
                 Demo.fresh_world (reachable_start 0 []))
              ltac:(vm_compute; reflexivity)) as [H1 H2].
  split; [exact H1|].
  apply (H2 (new_candidate "*.example.com" true)). constructor.
Defined.

Lemma returned_report_sorted_witness :
  Sorted host_leq_nocase (subdomains demo_report)
  /\ total_clean demo_report = 3%nat.
Proof.
  exact (returned_report_sorted Demo.env (Some "example.com")
           Demo.fresh_world demo_report (reachable_start 0 [])
           ltac:(vm_compute; reflexivity)).
Defined.

(** * Further properties of the pipeline *)

Local Open Scope nat_scope.

(** ** Extraction as a function of the set of lines *)

Lemma clean_line_map d st line0 :
  (clean_line d st line0).2
  = if String.eqb (PyStr.strip line0) EmptyString then st.2
    else match line_key d (PyStr.strip line0) with
         | Some k =>
             match st.2 !! k with
             | Some _ => st.2
             | None => <[ k := new_candidate k (PyStr.startswith k "*.") ]> st.2
             end
         | None => st.2
         end.
Proof.
  unfold clean_line, line_key.
  destruct (String.eqb (PyStr.strip line0) EmptyString); [reflexivity|].
  destruct (_ || _ || _); [reflexivity|].
  destruct (negb (HOSTNAME_REGEX _)); [reflexivity|].
  destruct (negb (String.eqb _ _) && negb (PyStr.endswith _ _));
    [reflexivity|].
  destruct (st.2 !! _); reflexivity.
Qed.

Lemma keys_of_app d l1 l2 : keys_of d (l1 ++ l2) = keys_of d l1 ∪ keys_of d l2.
Proof. unfold keys_of. rewrite omap_app. apply list_to_set_app_L. Qed.

Lemma elem_of_keys_of d l k :
  k ∈ keys_of d l <-> exists x, x ∈ l /\ line_key d x = Some k.
Proof. unfold keys_of. rewrite elem_of_list_to_set. apply list_elem_of_omap. Qed.

Lemma clean_line_map_of_lines d seen st line0 :
  map_of_lines d seen st.2 ->
  map_of_lines d (seen ++ kept_line line0) (clean_line d st line0).2.
Proof.
  intros Hm. rewrite clean_line_map. unfold kept_line.
  destruct (String.eqb (PyStr.strip line0) EmptyString);
    [rewrite app_nil_r; exact Hm|].
  intros k c. rewrite keys_of_app.
  unfold keys_of at 2. simpl.
  destruct (line_key d (PyStr.strip line0)) as [k0|] eqn:Hk; simpl.
  - destruct (st.2 !! k0) as [c0|] eqn:H0.
    + rewrite (Hm k c). apply Hm in H0 as [H0 _]. set_solver.
    + destruct (decide (k0 = k)) as [->|Hne].
      * rewrite lookup_insert_eq. split.
        -- intros H. injection H as <-. split; [set_solver | reflexivity].
        -- intros [_ ->]. reflexivity.
      * rewrite lookup_insert_ne by exact Hne. rewrite (Hm k c). set_solver.
  - rewrite (Hm k c). set_solver.
Qed.

Lemma clean_lines_map_of_lines d lines seen st :
  map_of_lines d seen st.2 ->
  map_of_lines d (seen ++ (lines ≫= kept_line)) (foldl (clean_line d) st lines).2.
Proof.
  revert seen st. induction lines as [|l lines IH]; intros seen st Hm; simpl.
  - rewrite app_nil_r. exact Hm.
  - rewrite app_assoc. apply IH, clean_line_map_of_lines, Hm.
Qed.

Lemma entry_lines_kept e :
  entry_lines e
  = PyStr.split LF (PyStr.strip (default EmptyString (name_value e)))
      ≫= kept_line.
Proof.
  unfold entry_lines.
  induction (PyStr.split LF _) as [|l lines IH]; [reflexivity|].
  rewrite fmap_cons, bind_cons. cbn [List.filter]. rewrite IH.
  change (kept_line l)
    with (if String.eqb (PyStr.strip l) EmptyString then []
          else [PyStr.strip l]).
  destruct (String.eqb (PyStr.strip l) EmptyString); reflexivity.
Qed.

Lemma clean_entry_map_of_lines d seen st e :
  map_of_lines d seen st.2 ->
  map_of_lines d (seen ++ entry_lines e) (clean_entry d st e).2.
Proof.
  intros Hm. rewrite entry_lines_kept. unfold clean_entry.
  destruct (String.eqb _ EmptyString) eqn:He.
  - apply String.eqb_eq in He. rewrite He. simpl.
    unfold kept_line. simpl. rewrite app_nil_r. exact Hm.
  - apply clean_lines_map_of_lines, Hm.
Qed.

Lemma extract_state_map_of_lines raw_data d :
  map_of_lines d (raw_lines raw_data) (extract_state raw_data d).2.
Proof.
  unfold extract_state, raw_lines.
  assert (H : forall seen st, map_of_lines d seen st.2 ->
            map_of_lines d (seen ++ (raw_data ≫= entry_lines))
              (foldl (clean_entry d) st raw_data).2).
  { induction raw_data as [|e raw IH]; intros seen st Hm; simpl.
    - rewrite app_nil_r. exact Hm.
    - rewrite app_assoc. apply IH, clean_entry_map_of_lines, Hm. }
  apply (H [] (∅, ∅)). intros k c. simpl. rewrite lookup_empty.
  unfold keys_of. simpl. set_solver.
Qed.

Lemma extract_line_set (raw1 raw2 : list Entry) (d : string) :
  (list_to_set (raw_lines raw1) : gset string) = list_to_set (raw_lines raw2) ->
  extract_and_clean_subdomains raw1 d = extract_and_clean_subdomains raw2 d.
Proof.
  intros Hs.
  destruct (total_raw_counts_lines raw1 d) as [_ H1].
  destruct (total_raw_counts_lines raw2 d) as [_ H2].
  apply injective_projections; [rewrite H1, H2, Hs; reflexivity|].
  unfold extract_and_clean_subdomains; simpl.
  pose proof (extract_state_map_of_lines raw1 d) as M1.
  pose proof (extract_state_map_of_lines raw2 d) as M2.
  assert (Hk : keys_of d (raw_lines raw1) = keys_of d (raw_lines raw2)).
  { apply set_eq. intros k. rewrite !elem_of_keys_of.
    split; intros (x & Hx & Hl); exists x; split; try exact Hl;
      apply (elem_of_list_to_set (C := gset string)) in Hx;
      apply (elem_of_list_to_set (C := gset string));
      [rewrite <- Hs | rewrite Hs]; exact Hx. }
  apply map_eq. intros k. apply option_eq. intros c.
  rewrite (M1 k c), (M2 k c), Hk. reflexivity.
Qed.

(** X1: the result of the extraction depends only on the set of the
    non-empty lines of the payload: two payloads with the same lines, in
    any order and with any repetitions, give the same count and the same
    candidate map. *)
Theorem extraction_depends_on_line_set (raw1 raw2 : list Entry) (d : string) :
  (list_to_set (raw_lines raw1) : gset string) = list_to_set (raw_lines raw2) ->
  extract_and_clean_subdomains raw1 d = extract_and_clean_subdomains raw2 d.
Proof. apply extract_line_set. Qed.

Lemma extraction_depends_on_line_set_witness :
  extract_and_clean_subdomains (scenario_raw ++ scenario_raw) "example.com"
  = extract_and_clean_subdomains (reverse scenario_raw) "example.com".
Proof.
  apply extraction_depends_on_line_set. vm_compute. reflexivity.
Defined.

(** ** The shape of candidate hosts *)

Lemma all_chars_impl (P Q : ascii -> bool) s :
  (forall c, P c = true -> Q c = true) ->
  PyStr.all_chars P s = true -> PyStr.all_chars Q s = true.
Proof.
  intros HPQ. induction s as [|c s IH]; simpl; [reflexivity|].
  intros H. apply andb_true_iff in H as [Hc Hs].
  rewrite (HPQ c Hc). auto.
Qed.

Lemma all_chars_and (P Q : ascii -> bool) s :
  PyStr.all_chars P s = true -> PyStr.all_chars Q s = true ->
  PyStr.all_chars (fun c => P c && Q c) s = true.
Proof.
  induction s as [|c s IH]; simpl; [reflexivity|].
  intros H1 H2. apply andb_true_iff in H1 as [-> H1].
  apply andb_true_iff in H2 as [-> H2]. simpl. auto.
Qed.


Lemma all_chars_lower (P : ascii -> bool) s :
  (forall c, P c = true -> P (PyStr.lower_char c) = true) ->
  PyStr.all_chars P s = true -> PyStr.all_chars P (PyStr.lower s) = true.
Proof.
  intros HP. induction s as [|c s IH]; simpl; [reflexivity|].
  intros H. apply andb_true_iff in H as [Hc Hs].
  rewrite (HP c Hc). auto.
Qed.

Lemma all_chars_append (P : ascii -> bool) s t :
  PyStr.all_chars P (s +:+ t)
  = PyStr.all_chars P s && PyStr.all_chars P t.
Proof.
  induction s as [|c s IH]; [reflexivity|].
  rewrite append_cons. simpl. rewrite IH, andb_assoc. reflexivity.
Qed.


(** What holds of every piece holds of every character but the
    separators. *)
Lemma all_chars_of_pieces (P : ascii -> bool) sep s :
  forallb (PyStr.all_chars P) (PyStr.split sep s) = true ->
  PyStr.all_chars (fun c => P c || Ascii.eqb c sep) s = true.
Proof.
  induction s as [|c s IH]; simpl; [reflexivity|].
  destruct (Ascii.eqb c sep) eqn:Hc.
  - simpl. rewrite orb_true_r. simpl. exact IH.
  - destruct (PyStr.split sep s) as [|h t]; simpl; intros H.
    + apply andb_true_iff in H as [H _]. apply andb_true_iff in H as [-> _].
      simpl. apply IH. reflexivity.
    + apply andb_true_iff in H as [H Ht]. apply andb_true_iff in H as [-> Hh].
      simpl. apply IH. simpl. rewrite Hh, Ht. reflexivity.
Qed.

Lemma label_ok_chars l : label_ok l = true -> PyStr.all_chars label_char l = true.
Proof. unfold label_ok. intros H. apply andb_true_iff in H as [_ H]. exact H. Qed.

Lemma hostname_shape_chars s :
  hostname_shape s = true ->
  PyStr.all_chars (fun c => label_char c || Ascii.eqb c ".") s = true.
Proof.
  unfold hostname_shape. intros H. apply andb_true_iff in H as [_ H].
  apply all_chars_of_pieces.
  induction (PyStr.split "." s) as [|l ls IH]; [reflexivity|].
  simpl in *. apply andb_true_iff in H as [Hl Hls].
  rewrite (label_ok_chars l Hl). auto.
Qed.

Lemma chop_newline_spec s t :
  chop_newline s = Some t -> s = t +:+ String LF EmptyString.
Proof.
  revert t. induction s as [|c s IH]; intros t; simpl; [discriminate|].
  destruct s as [|c' s'].
  - destruct (Ascii.eqb c LF) eqn:Hc; [|discriminate].
    apply Ascii.eqb_eq in Hc as ->. intros H. injection H as <-. reflexivity.
  - destruct (chop_newline (String c' s')) as [t'|]; [|discriminate].
    intros H. injection H as <-. rewrite append_cons, (IH t' eq_refl).
    reflexivity.
Qed.









(** ** A pipeline run, step by step *)

Lemma verify_dns_result E hostname w w' :
  (verify_dns E hostname w).1 = (verify_dns E hostname w').1.
Proof.
  unfold verify_dns. destruct (PyStr.startswith hostname "*."); [reflexivity|].
  destruct (resolver_available E); [|reflexivity].
  unfold bind, try_resolve, emit, ret, bind. simpl.
  destruct (resolve E hostname A), (resolve E hostname AAAA),
    (resolve E hostname CNAME); reflexivity.
Qed.

Lemma verify_one_verified E c w : (verify_one E c w).1 = verified E c.
Proof.
  unfold verified, verify_one, bind.
  pose proof (verify_dns_result E (host c) w (world_at 0)) as H.
  destruct (verify_dns E (host c) w) as [[r recs] w1].
  destruct (verify_dns E (host c) (world_at 0)) as [[r' recs'] w1'].
  simpl in H. injection H as -> ->. reflexivity.
Qed.

Lemma verify_one_trace E c w :
  trace (verify_one E c w).2 = trace w ++ queries_of E (host c).
Proof.
  unfold queries_of.
  destruct (PyStr.startswith (host c) "*.") eqn:Hw.
  - unfold verify_one, bind, verify_dns. rewrite Hw. simpl.
    rewrite app_nil_r. reflexivity.
  - pose proof (verify_dns_trace E (host c) w Hw) as (_ & _ & Ht).
    unfold verify_one, bind.
    destruct (verify_dns E (host c) w) as [[r recs] w1]. exact Ht.
Qed.

Lemma for_each_verified E l w :
  (for_each (verify_one E) l w).1 = verified E <$> l
  /\ trace (for_each (verify_one E) l w).2
     = trace w ++ (l ≫= fun c => queries_of E (host c)).
Proof.
  revert w. induction l as [|c l IH]; intros w; simpl.
  - rewrite app_nil_r. auto.
  - unfold bind.
    pose proof (verify_one_verified E c w) as Hv.
    pose proof (verify_one_trace E c w) as Ht.
    destruct (verify_one E c w) as [y w1]. simpl in Hv, Ht.
    destruct (IH w1) as [IHv IHt].
    destruct (for_each (verify_one E) l w1) as [ys w2]. simpl in *.
    split; [f_equal; assumption|].
    rewrite IHt, Ht, <- app_assoc. reflexivity.
Qed.

Lemma verify_all_verified E l w :
  (verify_all E l w).1 = sort_by (finish_le E) (verified E <$> l)
  /\ trace (verify_all E l w).2
     = trace w ++ (l ≫= fun c => queries_of E (host c)).
Proof.
  unfold verify_all, bind.
  destruct (for_each_verified E l w) as [Hv Ht].
  destruct (for_each (verify_one E) l w) as [ys w1]. simpl in *.
  rewrite Hv. auto.
Qed.

(** A run of the pipeline whose fetch succeeds, in full. *)
Lemma run_pipeline_run E d cache key w raw_data :
  requests_get E (crt_url d) = inr raw_data ->
  let w1 := {| cache_file := cache_file w; clock_reads := clock_reads w;
               trace := trace w ++ [EvHttpGet (crt_url d)] |} in
  let cleaned := (extract_and_clean_subdomains raw_data d).2 in
  let inputs := (map_to_list cleaned).*2 in
  let vs := sort_by host_le (sort_by (finish_le E) (verified E <$> inputs)) in
  let r := {| domain := d;
              total_raw := (extract_and_clean_subdomains raw_data d).1;
              total_clean := length vs; subdomains := vs |} in
  let result := run_pipeline E d cache key w in
  result.1 = (BReport r, 200%nat)
  /\ trace result.2
     = trace w1 ++ (inputs ≫= fun c => queries_of E (host c)) ++ [EvSaveCache]
  /\ exists ts,
       cache_file result.2
       = if cache_writable E
         then Some (<[ key := {| timestamp := Some ts; data := Some r |} ]> cache)
         else cache_file w.
Proof.
  intros Hf w1 cleaned inputs vs r result. subst result.
  unfold run_pipeline, bind, emit. fold (crt_url d). rewrite Hf. fold w1.
  subst r vs inputs cleaned.
  destruct (extract_and_clean_subdomains raw_data d) as [tr cleaned].
  cbn [fst snd].
  pose proof (verify_all_verified E (map_to_list cleaned).*2 w1) as [Hv Ht].
  pose proof (verify_all_hosts E (map_to_list cleaned).*2 w1) as [_ (Hc & _)].
  destruct (verify_all E (map_to_list cleaned).*2 w1) as [vs w2].
  simpl in Hv, Ht, Hc. subst vs.
  unfold datetime_now, save_cache, bind, emit, ret. simpl.
  split; [reflexivity|]. split.
  - destruct (cache_writable E); simpl; rewrite Ht, <- app_assoc; reflexivity.
  - eexists. destruct (cache_writable E); simpl; [reflexivity | exact Hc].
Qed.

Lemma verify_dns_consistent E hostname w :
  let result := (verify_dns E hostname w).1 in
  (result.1 = true <-> result.2 <> [])
  /\ NoDup result.2
  /\ (PyStr.startswith hostname "*." = true -> result.1 = false).
Proof.
  unfold verify_dns. destruct (PyStr.startswith hostname "*.").
  { simpl. repeat split; try constructor; congruence. }
  destruct (resolver_available E).
  2:{ simpl. repeat split; try constructor; congruence. }
  unfold bind, try_resolve, emit, ret, bind. simpl.
  destruct (resolve E hostname A), (resolve E hostname AAAA),
    (resolve E hostname CNAME); simpl;
    (split; [split; congruence|]);
    (split; [apply (bool_decide_unpack _); reflexivity | discriminate]).
Qed.

Lemma calculate_confidence_high r h :
  calculate_confidence r h = high
  <-> PyStr.startswith h "*." = false /\ r = true.
Proof.
  unfold calculate_confidence. destruct (PyStr.startswith h "*.").
  { split; [discriminate | intros [H _]; discriminate]. }
  destruct r; [split; auto|].
  destruct (PyStr.split "." h) as [|l ls];
    [|destruct (PyStr.isdigit l)];
    (split; [discriminate | intros [_ H]; discriminate]).
Qed.

Lemma verified_record_ok E k c :
  candidate_ok k c -> host (verified E c) = k /\ record_ok (verified E c).
Proof.
  intros (Hh & _ & _ & Hw & _).
  unfold verified, verify_one, bind.
  pose proof (verify_dns_consistent E (host c) (world_at 0)) as (H1 & H2 & H3).
  destruct (verify_dns E (host c) (world_at 0)) as [[r recs] w1].
  cbn [fst snd] in H1, H2, H3. split; [exact Hh|].
  unfold record_ok, ret.
  cbn [fst snd host wildcard resolves records confidence]. rewrite Hh in *.
  split; [exact Hw|]. split.
  { intros Hc. apply H3, startswith_spec, Hw, Hc. }
  split; [exact H1|]. split; [exact H2|]. split; [reflexivity|].
  rewrite calculate_confidence_high. split; [intros [_ H]; exact H|].
  intros ->. split; [|reflexivity].
  destruct (PyStr.startswith k "*."); [|reflexivity].
  specialize (H3 eq_refl). discriminate.
Qed.

Lemma bind_keys {B} (f : string -> list B) (l : list (string * SubdomainInfo)) :
  Forall (fun kc => host kc.2 = kc.1) l ->
  l.*2 ≫= (fun c => f (host c)) = l.*1 ≫= f.
Proof.
  induction 1 as [|[k c] l Hk Hl IH]; [reflexivity|].
  rewrite !fmap_cons, !bind_cons, IH. simpl in *. rewrite Hk. reflexivity.
Qed.

Lemma cleaned_keys raw_data d :
  Forall (fun kc => candidate_ok kc.1 kc.2)
    (map_to_list (extract_and_clean_subdomains raw_data d).2).
Proof.
  apply Forall_forall. intros [k c] Hin.
  apply elem_of_map_to_list in Hin. simpl.
  unfold extract_and_clean_subdomains in Hin; simpl in Hin.
  apply (extract_state_ok raw_data d k c Hin).
Qed.

Lemma length_queries_of E h : length (queries_of E h) <= 3.
Proof.
  unfold queries_of. destruct (PyStr.startswith h "*."); simpl; [lia|].
  destruct (resolver_available E); simpl; lia.
Qed.

Lemma length_bind_le {X Y} (f : X -> list Y) n l :
  (forall x, length (f x) <= n) -> length (l ≫= f) <= n * length l.
Proof.
  intros Hf. induction l as [|x l IH]; [simpl; lia|].
  rewrite bind_cons, length_app. cbn [length].
  rewrite Nat.mul_succ_r. specialize (Hf x). lia.
Qed.

(** X3: a run that misses the cache and fetches the payload reads the
    cache, fetches once, issues the DNS queries of the candidates that
    are no wildcards (three each when a resolver can be built, at most
    three times the number of candidates in all) and then writes the
    cache once; nothing else happens. *)
Theorem pipeline_effects (E : Env) (request_domain : option string)
  (d : string) (raw_data : list Entry) (w : World) :
  queried_domain request_domain = Some d ->
  cache_miss E w d ->
  requests_get E (crt_url d) = inr raw_data ->
  let cleaned := (extract_and_clean_subdomains raw_data d).2 in
  exists qs,
    trace (subdomain_finder_enhanced E request_domain w).2
    = trace w ++ [EvLoadCache; EvHttpGet (crt_url d)] ++ qs ++ [EvSaveCache]
    /\ qs ≡ₚ (map_to_list cleaned).*1 ≫= queries_of E
    /\ length qs <= 3 * size cleaned.
Proof.
  intros Hd Hm Hf cleaned.
  destruct (endpoint_miss E request_domain d w Hd Hm) as (w1 & _ & Ht & ->).
  destruct (run_pipeline_run E d (default ∅ (cache_file w)) (cache_key_of d)
              w1 raw_data Hf) as (_ & Hq & _).
  eexists. split; [|split; [reflexivity|]].
  - rewrite Hq. cbn [trace]. rewrite Ht.
    rewrite (bind_keys (queries_of E)).
    + rewrite <- !app_assoc. reflexivity.
    + eapply Forall_impl; [apply cleaned_keys|].
      intros [k c] (H & _). exact H.
  - rewrite <- (length_map_to_list cleaned), <- (length_fmap fst).
    apply length_bind_le, length_queries_of.
Qed.

Lemma pipeline_effects_witness :
  exists qs,
    trace (subdomain_finder_enhanced Demo.env (Some "example.com")
             Demo.fresh_world).2
    = trace Demo.fresh_world
      ++ [EvLoadCache; EvHttpGet (crt_url "example.com")] ++ qs
      ++ [EvSaveCache]
    /\ qs ≡ₚ (map_to_list
                (extract_and_clean_subdomains scenario_raw "example.com").2).*1
             ≫= queries_of Demo.env
    /\ length qs
       <= 3 * size (extract_and_clean_subdomains scenario_raw "example.com").2.
Proof.
  exact (pipeline_effects Demo.env (Some "example.com") "example.com"
           scenario_raw Demo.fresh_world
           ltac:(vm_compute; reflexivity) ltac:(vm_compute; exact I)
           ltac:(vm_compute; reflexivity)).
Defined.

(** ** The report of a run *)

Lemma pipeline_hosts E (cleaned : gmap string SubdomainInfo) :
  Forall (fun kc => candidate_ok kc.1 kc.2) (map_to_list cleaned) ->
  let vs := sort_by host_le
              (sort_by (finish_le E) (verified E <$> (map_to_list cleaned).*2)) in
  host <$> vs ≡ₚ (map_to_list cleaned).*1 /\ Forall record_ok vs.
Proof.
  intros Hc vs. subst vs.
  assert (H : host <$> (verified E <$> (map_to_list cleaned).*2)
              = (map_to_list cleaned).*1
              /\ Forall record_ok (verified E <$> (map_to_list cleaned).*2)).
  { induction Hc as [|[k c] l Hk Hl [IH1 IH2]]; [split; [reflexivity|constructor]|].
    rewrite !fmap_cons. simpl in Hk.
    destruct (verified_record_ok E k c Hk) as [Hh Hr].
    split; [simpl; rewrite Hh; f_equal; exact IH1|].
    constructor; [exact Hr | exact IH2]. }
  destruct H as [H1 H2]. split.
  - rewrite <- H1. apply fmap_Permutation.
    rewrite sort_by_Permutation. apply sort_by_Permutation.
  - rewrite !sort_by_Permutation. exact H2.
Qed.

(** X4: the report of a run that misses the cache and fetches the
    payload is about the queried domain, counts the distinct non-empty
    lines of the payload, and lists each key of the candidate map once
    and nothing else, so that [total_clean] is the size of that map. *)
Theorem report_lists_candidates (E : Env) (request_domain : option string)
  (d : string) (raw_data : list Entry) (w : World) :
  queried_domain request_domain = Some d ->
  cache_miss E w d ->
  requests_get E (crt_url d) = inr raw_data ->
  let cleaned := (extract_and_clean_subdomains raw_data d).2 in
  exists r,
    (subdomain_finder_enhanced E request_domain w).1 = (BReport r, 200%nat)
    /\ domain r = d
    /\ total_raw r = size (list_to_set (raw_lines raw_data) : gset string)
    /\ host <$> subdomains r ≡ₚ (map_to_list cleaned).*1
    /\ NoDup (host <$> subdomains r)
    /\ total_clean r = size cleaned.
Proof.
  intros Hd Hm Hf cleaned.
  destruct (endpoint_miss E request_domain d w Hd Hm) as (w1 & _ & _ & ->).
  destruct (run_pipeline_run E d (default ∅ (cache_file w)) (cache_key_of d)
              w1 raw_data Hf) as (Hr & _ & _).
  eexists. split; [exact Hr|]. cbn [domain total_raw total_clean subdomains].
  destruct (pipeline_hosts E cleaned (cleaned_keys raw_data d)) as [Hp _].
  split; [reflexivity|].
  split; [apply total_raw_counts_lines|].
  split; [exact Hp|]. split.
  - pose proof (NoDup_fst_map_to_list cleaned) as Hn.
    rewrite <- Hp in Hn. exact Hn.
  - rewrite <- (length_map_to_list cleaned), <- (length_fmap fst).
    rewrite <- (Permutation_length Hp). symmetry. apply length_fmap.
Qed.

Lemma report_lists_candidates_witness :
  exists r,
    (subdomain_finder_enhanced Demo.env (Some "example.com")
       Demo.fresh_world).1 = (BReport r, 200%nat)
    /\ domain r = "example.com"
    /\ total_raw r = size (list_to_set (raw_lines scenario_raw) : gset string)
    /\ host <$> subdomains r
       ≡ₚ (map_to_list
             (extract_and_clean_subdomains scenario_raw "example.com").2).*1
    /\ NoDup (host <$> subdomains r)
    /\ total_clean r
       = size (extract_and_clean_subdomains scenario_raw "example.com").2.
Proof.
  exact (report_lists_candidates Demo.env (Some "example.com") "example.com"
           scenario_raw Demo.fresh_world
           ltac:(vm_compute; reflexivity) ltac:(vm_compute; exact I)
           ltac:(vm_compute; reflexivity)).
Defined.

(** X5: in the report of such a run every record is consistent: the
    wildcard flag is set exactly when the host starts with ["*."]; a
    wildcard never resolves; a record resolves exactly when it lists a
    record type, and lists none twice; its confidence is the score of
    its own [resolves] and [host], and is ["high"] exactly when it
    resolves. *)
Theorem report_records_consistent (E : Env) (request_domain : option string)
  (d : string) (raw_data : list Entry) (w : World) :
  queried_domain request_domain = Some d ->
  cache_miss E w d ->
  requests_get E (crt_url d) = inr raw_data ->
  exists r,
    (subdomain_finder_enhanced E request_domain w).1 = (BReport r, 200%nat)
    /\ Forall record_ok (subdomains r).
Proof.
  intros Hd Hm Hf.
  destruct (endpoint_miss E request_domain d w Hd Hm) as (w1 & _ & _ & ->).
  destruct (run_pipeline_run E d (default ∅ (cache_file w)) (cache_key_of d)
              w1 raw_data Hf) as (Hr & _ & _).
  eexists. split; [exact Hr|]. cbn [subdomains].
  apply (pipeline_hosts E _ (cleaned_keys raw_data d)).
Qed.

Lemma report_records_consistent_witness :
  exists r,
    (subdomain_finder_enhanced Demo.env (Some "example.com")
       Demo.fresh_world).1 = (BReport r, 200%nat)
    /\ Forall record_ok (subdomains r).
Proof.
  exact (report_records_consistent Demo.env (Some "example.com") "example.com"
           scenario_raw Demo.fresh_world
           ltac:(vm_compute; reflexivity) ltac:(vm_compute; exact I)
           ltac:(vm_compute; reflexivity)).
Defined.

(** ** The cache across requests *)

(** X6: after a run that misses the cache, fetches the payload and can
    write the cache file, the report lies in the cache under the key of
    the domain and every other key of the file is as before; a later
    request for the domain, in any environment that reads the stored
    timestamp as less than 24 hours old, is answered with the same
    report and only reads the cache. *)
Theorem fetched_report_is_served_again (E : Env)
  (request_domain : option string) (d : string) (raw_data : list Entry)
  (w : World) :
  queried_domain request_domain = Some d ->
  cache_miss E w d ->
  requests_get E (crt_url d) = inr raw_data ->
  cache_writable E = true ->
  let first := subdomain_finder_enhanced E request_domain w in
  exists r e,
    first.1 = (BReport r, 200%nat)
    /\ default ∅ (cache_file first.2) !! cache_key_of d = Some e
    /\ data e = Some r
    /\ (forall key, key <> cache_key_of d ->
          default ∅ (cache_file first.2) !! key
          = default ∅ (cache_file w) !! key)
    /\ forall E2 request2 T,
         queried_domain request2 = Some d ->
         fromisoformat E2 (default EmptyString (timestamp e)) = Some (naive T) ->
         (clock E2 (clock_reads first.2) - T < timedelta_hours 24)%Z ->
         let second := subdomain_finder_enhanced E2 request2 first.2 in
         second.1 = first.1
         /\ cache_file second.2 = cache_file first.2
         /\ trace second.2 = trace first.2 ++ [EvLoadCache].
Proof.
  intros Hd Hm Hf Hw first. subst first.
  destruct (endpoint_miss E request_domain d w Hd Hm) as (w1 & _ & _ & ->).
  destruct (run_pipeline_run E d (default ∅ (cache_file w)) (cache_key_of d)
              w1 raw_data Hf) as (Hr & _ & ts & Hc).
  rewrite Hw in Hc.
  set (first := run_pipeline E d (default ∅ (cache_file w)) (cache_key_of d) w1)
    in *.
  match type of Hc with _ = Some ?m => set (cache' := m) in * end.
  assert (Hcf : default ∅ (cache_file first.2) = cache')
    by (rewrite Hc; reflexivity).
  assert (He : default ∅ (cache_file first.2) !! cache_key_of d
               = cache' !! cache_key_of d) by (rewrite Hcf; reflexivity).
  unfold cache' in He. rewrite lookup_insert_eq in He.
  eexists _, _. split; [exact Hr|].
  split; [exact He|]. split; [reflexivity|]. split.
  { intros key Hk. rewrite Hcf. unfold cache'.
    rewrite lookup_insert_ne by congruence. reflexivity. }
  intros E2 request2 T Hd2 Hp Ht second. subst second.
  assert (Hv : (is_cache_valid E2 (default EmptyString (Some ts)) first.2).1
               = true).
  { rewrite (is_cache_valid_naive E2 _ T _ Hp). apply Z.ltb_lt, Ht. }
  destruct (endpoint_hit E2 request2 d _ first.2 Hd2 He Hv)
    as (w2 & H1 & H2 & ->).
  cbn [data fst snd]. rewrite Hr. auto.
Qed.

Lemma fetched_report_is_served_again_witness :
  (subdomain_finder_enhanced Demo.env (Some " Example.COM ") warm_world).1
  = (BReport demo_report, 200%nat).
Proof.
  destruct (fetched_report_is_served_again Demo.env (Some "example.com")
              "example.com" scenario_raw Demo.fresh_world
              ltac:(vm_compute; reflexivity) ltac:(vm_compute; exact I)
              ltac:(vm_compute; reflexivity) eq_refl)
    as (r & e & Hr & He & _ & _ & Hagain).
  vm_compute in He. injection He as <-.
  destruct (Hagain Demo.env (Some " Example.COM ") Demo.noon
              ltac:(vm_compute; reflexivity) ltac:(vm_compute; reflexivity)
              ltac:(vm_compute; reflexivity)) as [H _].
  unfold warm_world. rewrite H. vm_compute. reflexivity.
Defined.



(** ** Refused requests *)



(** * The request sanitizers *)

(** ** More facts about the string primitives *)

Lemma rstrip_with_id p s :
  PyStr.all_chars (fun c => negb (p c)) s = true -> PyStr.rstrip_with p s = s.
Proof.
  induction s as [|c s IH]; simpl; [reflexivity|].
  intros H. apply andb_true_iff in H as [Hc Hs]. rewrite (IH Hs).
  apply negb_true_iff in Hc. rewrite Hc. destruct s; reflexivity.
Qed.

Lemma lstrip_with_id p s :
  PyStr.all_chars (fun c => negb (p c)) s = true -> PyStr.lstrip_with p s = s.
Proof.
  destruct s as [|c s]; simpl; [reflexivity|].
  intros H. apply andb_true_iff in H as [Hc _].
  apply negb_true_iff in Hc. rewrite Hc. reflexivity.
Qed.

Lemma strip_id s :
  PyStr.all_chars (fun c => negb (PyStr.isspace_char c)) s = true ->
  PyStr.strip s = s.
Proof.
  intros H. unfold PyStr.strip. rewrite lstrip_with_id by exact H.
  apply rstrip_with_id, H.
Qed.

Lemma split_head_id sep s :
  PyStr.all_chars (is_not sep) s = true -> PyStr.split_head sep s = s.
Proof.
  induction s as [|c s IH]; simpl; [reflexivity|].
  intros H. apply andb_true_iff in H as [Hc Hs]. unfold is_not in Hc.
  apply negb_true_iff in Hc. rewrite Hc, (IH Hs). reflexivity.
Qed.

Lemma startswith_chars (P : ascii -> bool) s p :
  PyStr.startswith s p = true -> PyStr.all_chars P s = true ->
  PyStr.all_chars P p = true.
Proof.
  revert s. induction p as [|a p IH]; intros s; simpl; [reflexivity|].
  destruct s as [|b s]; [discriminate|]. simpl.
  intros H1 H2. apply andb_true_iff in H1 as [Hab Hp].
  apply andb_true_iff in H2 as [Hb Hs].
  apply Ascii.eqb_eq in Hab as ->. rewrite Hb. eauto.
Qed.

(** Nothing is removed from a text that lacks a character of [old]. *)
Lemma remove_all_id (P : ascii -> bool) old s :
  PyStr.all_chars P old = false -> PyStr.all_chars P s = true ->
  PyStr.remove_all old s = s.
Proof.
  intros Hold. unfold PyStr.remove_all.
  induction s as [|c s IH]; intros Hs; [reflexivity|].
  cbn [PyStr.remove_from].
  destruct (PyStr.startswith (String c s) old) eqn:Hp.
  - rewrite (startswith_chars P _ _ Hp Hs) in Hold. discriminate.
  - simpl in Hs. apply andb_true_iff in Hs as [_ Hs]. rewrite (IH Hs).
    reflexivity.
Qed.

Lemma lower_idem s : PyStr.lower (PyStr.lower s) = PyStr.lower s.
Proof. apply lower_lowercase. Qed.

Lemma isspace_lower c :
  PyStr.isspace_char (PyStr.lower_char c) = PyStr.isspace_char c.
Proof. destruct c as [[] [] [] [] [] [] [] []]; reflexivity. Qed.

Lemma lower_lstrip s :
  PyStr.lower (PyStr.lstrip_with PyStr.isspace_char s)
  = PyStr.lstrip_with PyStr.isspace_char (PyStr.lower s).
Proof.
  induction s as [|c s IH]; simpl; [reflexivity|].
  rewrite isspace_lower. destruct (PyStr.isspace_char c); [exact IH|reflexivity].
Qed.

Lemma lower_rstrip s :
  PyStr.lower (PyStr.rstrip_with PyStr.isspace_char s)
  = PyStr.rstrip_with PyStr.isspace_char (PyStr.lower s).
Proof.
  induction s as [|c s IH]; simpl; [reflexivity|].
  rewrite <- IH, isspace_lower.
  destruct (PyStr.rstrip_with PyStr.isspace_char s) as [|d r]; simpl.
  - destruct (PyStr.isspace_char c); reflexivity.
  - reflexivity.
Qed.

Lemma lower_strip s : PyStr.lower (PyStr.strip s) = PyStr.strip (PyStr.lower s).
Proof. unfold PyStr.strip. rewrite lower_rstrip, lower_lstrip. reflexivity. Qed.

Lemma rstrip_with_idem p s :
  PyStr.rstrip_with p (PyStr.rstrip_with p s) = PyStr.rstrip_with p s.
Proof.
  induction s as [|c s IH]; simpl; [reflexivity|].
  destruct (PyStr.rstrip_with p s) as [|d r] eqn:Hr.
  - destruct (p c) eqn:Hc; simpl; [reflexivity|]. rewrite Hc. reflexivity.
  - cbn [PyStr.rstrip_with]. cbn [PyStr.rstrip_with] in IH.
    rewrite IH. reflexivity.
Qed.

Lemma lstrip_rstrip p s :
  PyStr.lstrip_with p (PyStr.rstrip_with p (PyStr.lstrip_with p s))
  = PyStr.rstrip_with p (PyStr.lstrip_with p s).
Proof.
  induction s as [|c s IH]; simpl; [reflexivity|].
  destruct (p c) eqn:Hc; [exact IH|].
  cbn [PyStr.rstrip_with].
  destruct (PyStr.rstrip_with p s); rewrite ?Hc;
    cbn [PyStr.lstrip_with]; rewrite Hc; reflexivity.
Qed.

Lemma strip_idem s : PyStr.strip (PyStr.strip s) = PyStr.strip s.
Proof.
  unfold PyStr.strip. rewrite lstrip_rstrip. apply rstrip_with_idem.
Qed.

(** ** [sanitize_hostname] *)

Lemma host_char_facts c :
  host_char c = true ->
  negb (PyStr.isspace_char c) = true /\ is_not ":" c = true
  /\ is_not "/" c = true /\ host_char (PyStr.lower_char c) = true.
Proof. destruct c as [[] [] [] [] [] [] [] []]; vm_compute; auto; discriminate. Qed.

Lemma sanitized_char_facts c :
  sanitized_char c = true -> is_not ":" c = true /\ is_not "/" c = true.
Proof. destruct c as [[] [] [] [] [] [] [] []]; vm_compute; auto; discriminate. Qed.

Lemma sanitized_char_of_lower c :
  is_lower_char c = true -> (host_char c || Ascii.eqb c LF) = true ->
  sanitized_char c = true.
Proof. destruct c as [[] [] [] [] [] [] [] []]; vm_compute; congruence. Qed.

Lemma HOSTNAME_REGEX_chars s :
  HOSTNAME_REGEX s = true ->
  PyStr.all_chars (fun c => host_char c || Ascii.eqb c LF) s = true.
Proof.
  unfold HOSTNAME_REGEX. destruct (hostname_shape s) eqn:Hs; simpl.
  - intros _. eapply all_chars_impl; [|apply hostname_shape_chars, Hs].
    intros c H. unfold host_char. rewrite H. reflexivity.
  - destruct (chop_newline s) as [t|] eqn:Ht; [|discriminate].
    apply chop_newline_spec in Ht as ->. intros H.
    rewrite all_chars_append. apply andb_true_iff. split; [|reflexivity].
    eapply all_chars_impl; [|apply hostname_shape_chars, H].
    intros c Hc. unfold host_char. rewrite Hc. reflexivity.
Qed.

Lemma sanitize_hostname_value v c :
  sanitize_hostname v = Some c ->
  HOSTNAME_REGEX c = true
  /\ c = PyStr.split_head ":"
           (PyStr.split_head "/"
              (PyStr.remove_all "http://"
                 (PyStr.remove_all "https://" (PyStr.lower (PyStr.strip v))))).
Proof.
  unfold sanitize_hostname. destruct (String.eqb v EmptyString); [discriminate|].
  destruct (HOSTNAME_REGEX _) eqn:Hr; [|discriminate].
  intros H. injection H as <-. auto.
Qed.

Lemma sanitize_hostname_chars v c :
  sanitize_hostname v = Some c -> PyStr.all_chars sanitized_char c = true.
Proof.
  intros H. pose proof (sanitize_hostname_lowercase v c H) as Hl.
  apply sanitize_hostname_value in H as [Hr _].
  eapply all_chars_impl;
    [|apply all_chars_and;
      [apply lowercase_all_chars, Hl | apply HOSTNAME_REGEX_chars, Hr]].
  intros ch Hc. apply andb_true_iff in Hc as [H1 H2].
  apply sanitized_char_of_lower; assumption.
Qed.



(** The sanitizer can hand on a value that ends with a line feed. *)
Example sanitize_hostname_line_feed :
  sanitize_hostname ("foo" +:+ String LF ":")
  = Some ("foo" +:+ String LF EmptyString).
Proof. vm_compute. reflexivity. Qed.

Lemma clean_id c :
  PyStr.all_chars (is_not ":") c = true -> PyStr.all_chars (is_not "/") c = true ->
  PyStr.split_head ":"
    (PyStr.split_head "/"
       (PyStr.remove_all "http://" (PyStr.remove_all "https://" c))) = c
  /\ clean_domain c = c.
Proof.
  intros H1 H2. unfold clean_domain.
  rewrite (remove_all_id (is_not ":") "https://" c eq_refl H1).
  rewrite (remove_all_id (is_not ":") "http://" c eq_refl H1).
  rewrite (remove_all_id (is_not ":") "https://" c eq_refl H1).
  rewrite (split_head_id "/" c H2), (split_head_id ":" c H1). auto.
Qed.

Lemma clean_domain_sanitized v c :
  sanitize_hostname v = Some c -> clean_domain c = c.
Proof.
  intros H. apply sanitize_hostname_chars in H.
  apply clean_id; (eapply all_chars_impl; [|exact H]);
    intros ch Hc; apply sanitized_char_facts in Hc as [? ?]; assumption.
Qed.

(** X10: the domain the endpoint works with is the value of
    [sanitize_hostname] on the requested domain: the strip and lower
    before it and the scheme, path and port removal after it change
    nothing. *)
Theorem queried_domain_is_sanitized (v : string) :
  queried_domain (Some v) = sanitize_hostname v.
Proof.
  unfold queried_domain. simpl.
  assert (Hs : sanitize_hostname (PyStr.lower (PyStr.strip v))
               = sanitize_hostname v).
  { unfold sanitize_hostname.
    rewrite (lower_strip (PyStr.lower (PyStr.strip v))), lower_idem.
    rewrite <- lower_strip, strip_idem.
    destruct (String.eqb v EmptyString) eqn:Hv.
    - apply String.eqb_eq in Hv as ->. reflexivity.
    - destruct (String.eqb (PyStr.lower (PyStr.strip v)) EmptyString) eqn:He;
        [|reflexivity].
      apply String.eqb_eq in He. rewrite He. reflexivity. }
  rewrite Hs. destruct (sanitize_hostname v) as [c|] eqn:Hc; [|reflexivity].
  simpl. rewrite (clean_domain_sanitized v c Hc). reflexivity.
Qed.

Lemma length_lower s : String.length (PyStr.lower s) = String.length s.
Proof. induction s as [|c s IH]; simpl; congruence. Qed.

Lemma lower_char_classes c :
  Ascii.eqb (PyStr.lower_char c) "." = Ascii.eqb c "."
  /\ alnum_char (PyStr.lower_char c) = alnum_char c
  /\ label_char (PyStr.lower_char c) = label_char c.
Proof. destruct c as [[] [] [] [] [] [] [] []]; vm_compute; auto. Qed.

Lemma split_dot_lower s :
  PyStr.split "." (PyStr.lower s) = PyStr.lower <$> PyStr.split "." s.
Proof.
  induction s as [|c s IH]; [reflexivity|].
  cbn [PyStr.lower PyStr.split].
  rewrite (proj1 (lower_char_classes c)), IH.
  destruct (Ascii.eqb c "."); [reflexivity|].
  destruct (PyStr.split "." s); reflexivity.
Qed.

Lemma last_char_lower s :
  last_char (PyStr.lower s) = PyStr.lower_char <$> last_char s.
Proof.
  induction s as [|c s IH]; [reflexivity|].
  cbn [PyStr.lower last_char]. destruct s as [|d s]; [reflexivity|].
  exact IH.
Qed.

Lemma all_chars_label_lower s :
  PyStr.all_chars label_char (PyStr.lower s) = PyStr.all_chars label_char s.
Proof.
  induction s as [|c s IH]; [reflexivity|]. simpl.
  rewrite (proj2 (proj2 (lower_char_classes c))), IH. reflexivity.
Qed.

Lemma label_ok_lower l : label_ok (PyStr.lower l) = label_ok l.
Proof.
  unfold label_ok.
  rewrite length_lower, last_char_lower, all_chars_label_lower.
  f_equal. f_equal; [f_equal|].
  - destruct l as [|c l]; [reflexivity|]. simpl.
    apply lower_char_classes.
  - destruct (last_char l) as [c|]; [|reflexivity]. simpl.
    apply lower_char_classes.
Qed.

(** The grammar does not look at the case of letters. *)
Lemma hostname_shape_lower s : hostname_shape (PyStr.lower s) = hostname_shape s.
Proof.
  unfold hostname_shape. rewrite length_lower, split_dot_lower. f_equal.
  induction (PyStr.split "." s) as [|l ls IH]; [reflexivity|].
  rewrite fmap_cons. simpl. rewrite label_ok_lower, IH. reflexivity.
Qed.

(** X11: a name that the hostname grammar accepts, in any mix of upper
    and lower case, is accepted by [sanitize_hostname], which gives back
    the name in lower case. *)
Theorem sanitize_hostname_lowers (h : string) :
  hostname_shape h = true ->
  sanitize_hostname h = Some (PyStr.lower h).
Proof.
  intros Hs. pose proof (hostname_shape_chars h Hs) as Hc.
  fold host_char in Hc.
  assert (Hstrip : PyStr.strip h = h).
  { apply strip_id. eapply all_chars_impl; [|exact Hc].
    intros c H. apply host_char_facts, H. }
  assert (Hl : PyStr.all_chars host_char (PyStr.lower h) = true).
  { apply all_chars_lower; [|exact Hc]. intros c H. apply host_char_facts, H. }
  unfold sanitize_hostname. rewrite Hstrip.
  destruct (String.eqb h EmptyString) eqn:He.
  { apply String.eqb_eq in He as ->. discriminate. }
  destruct (clean_id (PyStr.lower h)) as [-> _];
    try (eapply all_chars_impl; [|exact Hl];
         intros c H; apply host_char_facts, H).
  unfold HOSTNAME_REGEX. rewrite hostname_shape_lower, Hs. reflexivity.
Qed.

Lemma sanitize_hostname_lowers_witness :
  sanitize_hostname "Mail.Example-1.COM" = Some "mail.example-1.com".
Proof.
  exact (sanitize_hostname_lowers "Mail.Example-1.COM" eq_refl).
Defined.

(** ** [sanitize_email_value] *)

Example EMAIL_RE_ex :
  EMAIL_RE "a@b.c" = true /\ EMAIL_RE ("a@b.c" +:+ String LF EmptyString) = true
  /\ EMAIL_RE "a@.c" = false /\ EMAIL_RE "a@b." = false
  /\ EMAIL_RE "a@b..c" = true /\ EMAIL_RE "a@@b.c" = false
  /\ EMAIL_RE "a b@c.d" = false /\ EMAIL_RE "@b.c" = false
  /\ EMAIL_RE "a@b.c.d" = true /\ EMAIL_RE "a@bc" = false
  /\ EMAIL_RE "a.b@c.d" = true
  /\ EMAIL_RE ("a@b" +:+ String LF ".c") = false.
Proof. repeat split; vm_compute; reflexivity. Qed.

Lemma after_first_split sep s rest :
  after_first sep s = Some rest ->
  s = PyStr.split_head sep s +:+ String sep rest.
Proof.
  induction s as [|c s IH]; simpl; [discriminate|].
  destruct (Ascii.eqb c sep) eqn:Hc.
  - apply Ascii.eqb_eq in Hc as ->. intros H. injection H as ->. reflexivity.
  - intros H. rewrite append_cons, <- (IH H). reflexivity.
Qed.

(** A stripped text does not end with white space. *)
Lemma strip_no_trailing_space s t c :
  PyStr.strip s = t +:+ String c EmptyString -> PyStr.isspace_char c = false.
Proof. unfold PyStr.strip. apply rstrip_with_last. Qed.

Lemma sanitize_email_value_shape v c :
  sanitize_email_value v = Some c ->
  c = PyStr.lower (PyStr.strip v) /\ email_shape c = true.
Proof.
  unfold sanitize_email_value.
  destruct (String.eqb v EmptyString); [discriminate|].
  destruct (EMAIL_RE _) eqn:Hr; [|discriminate].
  intros H. injection H as <-. split; [reflexivity|].
  unfold EMAIL_RE in Hr. destruct (email_shape _); [reflexivity|].
  simpl in Hr. destruct (chop_newline _) as [t|] eqn:Ht; [|discriminate].
  apply chop_newline_spec in Ht. rewrite lower_strip in Ht.
  apply strip_no_trailing_space in Ht. discriminate.
Qed.

(** X12: whatever [sanitize_email_value] accepts is in lower case and
    reads [local@rest] with a non-empty [local], no white space and no
    further ["@"] on either side, and in [rest] a dot that is neither
    its first nor its last character. *)
Theorem sanitize_email_accepts (v c : string) :
  sanitize_email_value v = Some c ->
  lowercase c
  /\ exists local rest,
       c = local +:+ String "@" rest
       /\ local <> EmptyString
       /\ PyStr.all_chars email_char local = true
       /\ PyStr.all_chars email_char rest = true
       /\ inner_dot rest = true.
Proof.
  intros H. apply sanitize_email_value_shape in H as [Hc Hs].
  split; [rewrite Hc; apply lower_lowercase|].
  unfold email_shape in Hs.
  destruct (after_first "@" c) as [rest|] eqn:Ha; [|discriminate].
  apply andb_true_iff in Hs as [Hs H4]. apply andb_true_iff in Hs as [Hs H3].
  apply andb_true_iff in Hs as [H1 H2].
  exists (PyStr.split_head "@" c), rest.
  split; [apply after_first_split, Ha|]. split; [|auto].
  apply negb_true_iff, String.eqb_neq in H1. exact H1.
Qed.

Lemma sanitize_email_accepts_witness :
  lowercase "alice.b@example.org"
  /\ exists local rest,
       "alice.b@example.org" = local +:+ String "@" rest
       /\ local <> EmptyString
       /\ PyStr.all_chars email_char local = true
       /\ PyStr.all_chars email_char rest = true
       /\ inner_dot rest = true.
Proof.
  exact (sanitize_email_accepts " Alice.B@Example.ORG " "alice.b@example.org"
           ltac:(vm_compute; reflexivity)).
Defined.

(** X13: the e-mail sanitizer is idempotent: what it accepts it accepts
    again, unchanged. *)
Theorem sanitize_email_idempotent (v c : string) :
  sanitize_email_value v = Some c -> sanitize_email_value c = Some c.
Proof.
  intros H. apply sanitize_email_value_shape in H as [Hc Hs].
  assert (Hfix : PyStr.lower (PyStr.strip c) = c).
  { rewrite Hc. rewrite <- (lower_strip (PyStr.strip v)).
    rewrite lower_idem, strip_idem. reflexivity. }
  unfold sanitize_email_value. rewrite Hfix.
  destruct (String.eqb c EmptyString) eqn:He.
  { apply String.eqb_eq in He. rewrite He in Hs. discriminate. }
  unfold EMAIL_RE. rewrite Hs. reflexivity.
Qed.

Lemma sanitize_email_idempotent_witness :
  sanitize_email_value "alice.b@example.org" = Some "alice.b@example.org".
Proof.
  exact (sanitize_email_idempotent " Alice.B@Example.ORG "
           "alice.b@example.org" ltac:(vm_compute; reflexivity)).
Defined.

(** * The rate limiter *)

Section RateLimitFacts.

Import RateLimit.

Context (ops : TimeOps) (limit : Z).

Lemma enforce_not_api q now (st : gmap string (Bucket (Time ops))) :
  is_api q = false -> enforce_rate_limit ops limit q now st = (None, st).
Proof. intros H. unfold enforce_rate_limit. rewrite H. reflexivity. Qed.

Lemma enforce_other q now (st : gmap string (Bucket (Time ops))) k :
  k <> ip_key q -> (enforce_rate_limit ops limit q now st).2 !! k = st !! k.
Proof.
  intros Hk. unfold enforce_rate_limit.
  destruct (negb (is_api q)); [reflexivity|].
  match goal with |- context [if ?c then _ else _] => destruct c end;
    cbn [snd]; apply lookup_insert_ne; congruence.
Qed.

Lemma enforce_in_window q now (st : gmap string (Bucket (Time ops))) b :
  is_api q = true -> st !! ip_key q = Some b ->
  after ops now (reset b) = false ->
  enforce_rate_limit ops limit q now st
  = (if (limit <? count b + 1)%Z
     then Some {| retry_after :=
                    Z.max 1 (whole_seconds ops (reset b) now) |}
     else None,
     <[ ip_key q := {| count := count b + 1; reset := reset b |} ]> st).
Proof.
  intros Ha Hb Hw. unfold enforce_rate_limit.
  rewrite Ha, Hb. simpl. rewrite Hw. simpl.
  destruct (_ <? _)%Z; reflexivity.
Qed.

Lemma enforce_new_window q now (st : gmap string (Bucket (Time ops))) :
  is_api q = true ->
  window_over ops (ip_key q) now st ->
  enforce_rate_limit ops limit q now st
  = (if (limit <? 1)%Z
     then Some {| retry_after :=
                    Z.max 1 (whole_seconds ops (plus_window ops now) now) |}
     else None,
     <[ ip_key q := {| count := 1; reset := plus_window ops now |} ]> st).
Proof.
  intros Ha Hb. unfold window_over in Hb.
  unfold enforce_rate_limit. rewrite Ha. simpl.
  destruct (st !! ip_key q) as [b|]; simpl.
  - rewrite Hb. simpl. destruct (_ <? _)%Z; reflexivity.
  - destruct (after ops now (plus_window ops now));
      simpl; destruct (_ <? _)%Z; reflexivity.
Qed.


Lemma window_run k rs : forall (st : gmap string (Bucket (Time ops))) b,
  st !! k = Some b ->
  (forall q t, (q, t) ∈ rs -> from_client k q = true ->
               after ops t (reset b) = false) ->
  (serve ops limit rs st).2 !! k
  = Some {| count := count b + Z.of_nat (counted ops k rs); reset := reset b |}
  /\ let_through ops k rs (serve ops limit rs st).1
     = (fun j => (count b + Z.of_nat j <=? limit)%Z)
         <$> seq 1 (counted ops k rs).
Proof.
  induction rs as [|[q t] rs IH]; intros st b Hb Hw.
  { simpl. rewrite Z.add_0_r. destruct b; auto. }
  assert (Hw' : forall q' t', (q', t') ∈ rs -> from_client k q' = true ->
                          after ops t' (reset b) = false).
  { intros q' t' Hin. apply (Hw q' t'). apply elem_of_cons. right. exact Hin. }
  cbn [serve]. unfold counted. cbn [List.filter fst].
  destruct (from_client k q) eqn:Hq.
  - unfold from_client in Hq. apply andb_true_iff in Hq as [Ha Hk].
    apply String.eqb_eq in Hk. subst k.
    rewrite (enforce_in_window q t st b Ha Hb)
      by (apply (Hw q t);
          [ apply elem_of_cons; left; reflexivity
          | unfold from_client; rewrite Ha, String.eqb_refl; reflexivity ]).
    set (b' := {| count := count b + 1; reset := reset b |}).
    destruct (IH (<[ ip_key q := b' ]> st) b'
                (lookup_insert_eq _ _ _) Hw') as [IH1 IH2].
    destruct (serve ops limit rs _) as [ds st2]. cbn [fst snd] in *.
    assert (Hfc : from_client (ip_key q) q = true)
      by (unfold from_client; rewrite Ha, String.eqb_refl; reflexivity).
    cbn [let_through]. rewrite Hfc. cbn [length seq fmap list_fmap].
    split.
    + rewrite IH1. unfold counted, b'. cbn [count reset]. f_equal. f_equal.
      lia.
    + rewrite IH2. f_equal.
      * rewrite Z.leb_antisym. destruct (_ <? _)%Z; reflexivity.
      * fold (counted ops (ip_key q) rs).
        rewrite <- (fmap_S_seq 1), <- list_fmap_compose.
        apply list_fmap_ext. intros _ j _. unfold b'. cbn [count compose].
        f_equal. lia.
  - assert (Hk : (enforce_rate_limit ops limit q t st).2 !! k = Some b).
    { unfold from_client in Hq. apply andb_false_iff in Hq as [Ha|Hk].
      - rewrite (enforce_not_api q t st Ha). exact Hb.
      - rewrite enforce_other; [exact Hb|].
        apply String.eqb_neq in Hk. congruence. }
    destruct (enforce_rate_limit ops limit q t st) as [d st1].
    destruct (IH st1 b Hk Hw') as [IH1 IH2].
    destruct (serve ops limit rs st1) as [ds st2]. cbn [fst snd] in *.
    cbn [let_through]. rewrite Hq. auto.
Qed.

End RateLimitFacts.

(** X14: from the request that opens a window for a client (the client
    is new, or its former window has passed), and for as long as the
    later requests of the client do not come after the end of that
    window, the j-th counted request of the client is let through
    exactly when j is at most [RATE_LIMIT]; refused requests count too,
    and the requests of other clients play no part. *)
Theorem rate_limit_window_quota (ops : RateLimit.TimeOps) (limit : Z)
  (k : string) (q1 : RateLimit.Request) (t1 : RateLimit.Time ops)
  (rest : list (RateLimit.Request * RateLimit.Time ops))
  (st : gmap string (RateLimit.Bucket (RateLimit.Time ops))) :
  RateLimit.from_client k q1 = true ->
  RateLimit.window_over ops k t1 st ->
  (forall q t, (q, t) ∈ rest -> RateLimit.from_client k q = true ->
     RateLimit.after ops t (RateLimit.plus_window ops t1) = false) ->
  RateLimit.let_through ops k ((q1, t1) :: rest)
    (RateLimit.serve ops limit ((q1, t1) :: rest) st).1
  = (fun j => (Z.of_nat j <=? limit)%Z)
      <$> seq 1 (S (RateLimit.counted ops k rest)).
Proof.
  intros Hq Hw Hrest. pose proof Hq as Hq'.
  unfold RateLimit.from_client in Hq'. apply andb_true_iff in Hq' as [Ha Hk].
  apply String.eqb_eq in Hk. subst k.
  cbn [RateLimit.serve].
  rewrite (enforce_new_window ops limit q1 t1 st Ha Hw).
  set (b := {| RateLimit.count := 1;
               RateLimit.reset := RateLimit.plus_window ops t1 |}).
  destruct (window_run ops limit (RateLimit.ip_key q1) rest
              (<[ RateLimit.ip_key q1 := b ]> st) b
              (lookup_insert_eq _ _ _) Hrest) as [_ H].
  destruct (RateLimit.serve ops limit rest _) as [ds st2]. cbn [fst snd] in *.
  cbn [RateLimit.let_through]. rewrite Hq, H. cbn [seq fmap list_fmap].
  f_equal.
  - rewrite Z.leb_antisym. destruct (_ <? _)%Z; reflexivity.
  - rewrite <- (fmap_S_seq 1), <- list_fmap_compose.
    apply list_fmap_ext. intros _ j _. unfold b.
    cbn [RateLimit.count compose]. f_equal. lia.
Qed.

Lemma rate_limit_window_quota_witness :
  RateLimit.let_through (RateLimit.seconds 60) "203.0.113.7" burst
    (RateLimit.serve (RateLimit.seconds 60) 2 burst ∅).1
  = [true; true; false].
Proof.
  exact (rate_limit_window_quota (RateLimit.seconds 60) 2 "203.0.113.7"
           burst_request 0%Z (tail burst) ∅ eq_refl I
           ltac:(intros q t Hin _;
                 repeat (apply elem_of_cons in Hin as [Hin|Hin];
                         [injection Hin as _ ->; reflexivity|]);
                 inversion Hin)).
Defined.

(** X15: the limiter never touches the bucket of another client than
    the one it takes the request to come from, and that client key is
    never empty; a request outside [/api/] is let through and leaves
    every bucket alone; a refusal tells the client to wait one second
    at least. *)
Theorem rate_limit_frame (ops : RateLimit.TimeOps) (limit : Z)
  (q : RateLimit.Request) (now : RateLimit.Time ops)
  (st : gmap string (RateLimit.Bucket (RateLimit.Time ops))) :
  let result := RateLimit.enforce_rate_limit ops limit q now st in
  (forall k, k <> RateLimit.ip_key q -> result.2 !! k = st !! k)
  /\ RateLimit.ip_key q <> EmptyString
  /\ (RateLimit.is_api q = false -> result = (None, st))
  /\ (forall r, result.1 = Some r -> (1 <= RateLimit.retry_after r)%Z).
Proof.
  intros result. subst result. split; [|split; [|split]].
  - intros k Hk. apply enforce_other, Hk.
  - unfold RateLimit.ip_key, RateLimit.truthy.
    destruct (RateLimit.cf_connecting_ip q) as [s|]; simpl.
    1: destruct (String.eqb s EmptyString) eqn:He; simpl;
         [|apply String.eqb_neq, He].
    all: destruct (RateLimit.x_forwarded_for q) as [s2|]; simpl.
    all: try (destruct (String.eqb s2 EmptyString) eqn:He2; simpl;
              [|apply String.eqb_neq, He2]).
    all: destruct (RateLimit.remote_addr q) as [s3|]; simpl.
    all: try (destruct (String.eqb s3 EmptyString) eqn:He3; simpl;
              [|apply String.eqb_neq, He3]).
    all: discriminate.
  - apply enforce_not_api.
  - unfold RateLimit.enforce_rate_limit.
    destruct (negb (RateLimit.is_api q)); [discriminate|].
    match goal with |- context [if ?c then _ else _] => destruct c end;
      cbn [fst]; intros r H; [|discriminate].
    injection H as <-. cbn [RateLimit.retry_after]. lia.
Qed.

(** * CORS preflight *)





(** * The port scanner *)

Lemma Sorted_strict {X} (R R' : X -> X -> Prop) l :
  (forall x y, R x y -> x <> y -> R' x y) ->
  Sorted R l -> NoDup l -> Sorted R' l.
Proof.
  intros HR Hs. induction Hs as [|x l Hs IH Hd]; intros Hn; [constructor|].
  apply NoDup_cons in Hn as [Hx Hn]. constructor; [apply IH, Hn|].
  destruct Hd as [|y l Hxy]; constructor.
  apply HR; [exact Hxy|]. intros ->. apply Hx. apply elem_of_cons.
  left. reflexivity.
Qed.

Lemma Z_leb_total x y : Z.leb x y = true \/ Z.leb y x = true.
Proof. destruct (Z.leb_spec x y); [auto|]. right. apply Z.leb_le. lia. Qed.

Lemma ints_elem l zs p : Portscan.ints l = Some zs -> p ∈ zs <-> Some p ∈ l.
Proof.
  revert zs. induction l as [|[z|] l IH]; intros zs; simpl.
  - intros H. injection H as <-. set_solver.
  - destruct (Portscan.ints l) as [zs'|]; [|discriminate]. simpl.
    intros H. injection H as <-. rewrite !elem_of_cons, (IH zs' eq_refl).
    split; intros [H|H]; auto; [left; congruence | left; congruence].
  - discriminate.
Qed.

Lemma port_list_allowed q :
  NoDup (Portscan.port_list_of q)
  /\ forall p, p ∈ Portscan.port_list_of q -> p ∈ Portscan.COMMON_PORTS.
Proof.
  assert (Hc : NoDup Portscan.COMMON_PORTS /\
               forall p, p ∈ Portscan.COMMON_PORTS -> p ∈ Portscan.COMMON_PORTS).
  { split; [apply (bool_decide_unpack _); reflexivity | auto]. }
  unfold Portscan.port_list_of.
  destruct (Portscan.ports q) as [[|p ps]|]; try exact Hc.
  destruct (Portscan.ints (p :: ps)) as [zs|]; [|exact Hc]. split.
  - rewrite sort_by_Permutation. apply NoDup_elements.
  - intros x. rewrite sort_by_Permutation, elem_of_elements, elem_of_intersection.
    intros [_ H]. apply elem_of_list_to_set in H. exact H.
Qed.

(** X17: the scanner connects only to the target it names in its
    answer and only to ports of [COMMON_PORTS], whatever ports the
    request asks for: once to each port of the answer and in that
    order; the results hold one line per port of the answer.  A request
    without target is answered 400 and nothing is connected to. *)
Theorem portscan_probes_common_ports (port_open : string -> Z -> bool)
  (q : Portscan.Request) :
  let answer := (Portscan.portscan port_open q).1.1 in
  let status := (Portscan.portscan port_open q).1.2 in
  let probes := (Portscan.portscan port_open q).2 in
  Forall (fun hp => hp.1 = Portscan.target_of q
                    /\ hp.2 ∈ Portscan.COMMON_PORTS) probes
  /\ NoDup probes
  /\ match answer with
     | Portscan.Missing _ =>
         Portscan.target_of q = EmptyString /\ status = 400 /\ probes = []
     | Portscan.Scanned t ps rs =>
         t = Portscan.target_of q /\ t <> EmptyString /\ status = 200
         /\ probes = (fun p => (t, p)) <$> ps
         /\ rs.*1 = pretty <$> ps /\ NoDup rs.*1
     end.
Proof.
  unfold Portscan.portscan.
  destruct (String.eqb (Portscan.target_of q) EmptyString) eqn:Ht; cbn [fst snd].
  { split; [constructor|]. split; [constructor|].
    apply String.eqb_eq in Ht. auto. }
  destruct (port_list_allowed q) as [Hn Hin].
  split.
  { apply Forall_fmap, Forall_forall. intros p Hp. simpl. auto. }
  split.
  { apply NoDup_fmap_2; [|exact Hn]. intros x y H. congruence. }
  split; [reflexivity|]. split; [apply String.eqb_neq, Ht|].
  split; [reflexivity|]. split; [reflexivity|].
  rewrite <- list_fmap_compose.
  split; [apply list_fmap_ext; intros; reflexivity|].
  apply NoDup_fmap_2; [|exact Hn]. intros x y H. simpl in H.
  apply (inj pretty) in H. exact H.
Qed.

(** X18: when the request lists ports that all convert to integers,
    the ports scanned are those of the list that are in [COMMON_PORTS],
    each once, in ascending order. *)
Theorem portscan_requested_ports (q : Portscan.Request)
  (l : list (option Z)) (zs : list Z) :
  Portscan.ports q = Some l -> l <> [] -> Portscan.ints l = Some zs ->
  Sorted Z.lt (Portscan.port_list_of q)
  /\ forall p, p ∈ Portscan.port_list_of q
               <-> p ∈ zs /\ p ∈ Portscan.COMMON_PORTS.
Proof.
  intros Hp Hl Hz. unfold Portscan.port_list_of. rewrite Hp.
  destruct l as [|p0 l]; [congruence|]. rewrite Hz. split.
  - apply (Sorted_strict (holds Z.leb)).
    + intros x y Hxy Hne. apply Z.leb_le in Hxy. lia.
    + apply (sort_by_Sorted Z.leb Z_leb_total).
    + rewrite sort_by_Permutation. apply NoDup_elements.
  - intros p. rewrite sort_by_Permutation, elem_of_elements,
      elem_of_intersection, !elem_of_list_to_set. reflexivity.
Qed.

Lemma portscan_requested_ports_witness :
  Sorted Z.lt
    (Portscan.port_list_of
       {| Portscan.target := Some "example.com"; Portscan.host_ := None;
          Portscan.ports := Some [Some 443; Some 25; Some 22; Some 443]%Z |})
  /\ forall p,
       p ∈ Portscan.port_list_of
             {| Portscan.target := Some "example.com"; Portscan.host_ := None;
                Portscan.ports := Some [Some 443; Some 25; Some 22; Some 443]%Z |}
       <-> p ∈ [443; 25; 22; 443]%Z /\ p ∈ Portscan.COMMON_PORTS.
Proof.
  exact (portscan_requested_ports
           {| Portscan.target := Some "example.com"; Portscan.host_ := None;
              Portscan.ports := Some [Some 443; Some 25; Some 22; Some 443]%Z |}
           [Some 443; Some 25; Some 22; Some 443]%Z [443; 25; 22; 443]%Z
           eq_refl ltac:(discriminate) eq_refl).
Defined.

Example portscan_ex :
  Portscan.portscan (fun _ p => (p =? 443)%Z)
    {| Portscan.target := None; Portscan.host_ := Some " example.com ";
       Portscan.ports := Some [Some 443; Some 25; Some 22; Some 443]%Z |}
  = (Portscan.Scanned "example.com" [22; 443]%Z
       [("22", "closed"); ("443", "open")], 200,
     [("example.com", 22%Z); ("example.com", 443%Z)]).
Proof. vm_compute. reflexivity. Qed.


(** * The quick subdomain tool *)

Lemma leb_ltb x y : String.leb x y = true -> x <> y -> String.ltb x y = true.
Proof.
  unfold String.leb, String.ltb. intros H Hne.
  destruct (String.compare x y) eqn:Hc; try reflexivity; [|discriminate].
  apply String.compare_eq_iff in Hc. contradiction.
Qed.

Lemma add_name_elem d acc e x :
  x ∈ Tools.add_name d acc e <-> x ∈ acc \/ Tools.names_row d x e.
Proof.
  unfold Tools.add_name, Tools.names_row.
  set (name := PyStr.strip (default EmptyString (name_value e))).
  cbv zeta.
  destruct (String.eqb name EmptyString) eqn:He; cbn [negb andb].
  - apply String.eqb_eq in He. split; [auto|]. intros [H|[H _]]; [exact H|].
    contradiction.
  - apply String.eqb_neq in He.
    destruct (PyStr.contains d name) eqn:Hc.
    + rewrite elem_of_union, elem_of_singleton. split.
      * intros [->|H]; auto.
      * intros [H|(_ & _ & ->)]; auto.
    + split; [auto|]. intros [H|(_ & H & _)]; [exact H | discriminate].
Qed.

Lemma add_names_elem d l acc x :
  x ∈ foldl (Tools.add_name d) acc l
  <-> x ∈ acc \/ exists e, e ∈ l /\ Tools.names_row d x e.
Proof.
  revert acc. induction l as [|e l IH]; intros acc; cbn [foldl].
  - split; [auto|]. intros [H|(e & H & _)]; [exact H|].
    apply elem_of_nil in H as [].
  - rewrite IH, add_name_elem. split.
    + intros [[H|H]|(e' & H & Hr)]; [auto| |].
      * right. exists e. split; [apply elem_of_cons; auto | exact H].
      * right. exists e'. split; [apply elem_of_cons; auto | exact Hr].
    + intros [H|(e' & H & Hr)]; [auto|].
      apply elem_of_cons in H as [->|H]; [auto|].
      right. exists e'. auto.
Qed.

Lemma size_add_name d acc e : size (Tools.add_name d acc e) <= S (size acc).
Proof.
  unfold Tools.add_name. cbv zeta.
  match goal with |- context [if ?b then _ else _] => destruct b end; [|lia].
  rewrite size_union_alt, size_singleton.
  pose proof (subseteq_size (acc ∖ {[PyStr.lower (PyStr.split_head LF
    (PyStr.strip (default EmptyString (name_value e))))]}) acc
    ltac:(set_solver)). lia.
Qed.

Lemma size_add_names d l acc :
  size (foldl (Tools.add_name d) acc l) <= size acc + length l.
Proof.
  revert acc. induction l as [|e l IH]; intros acc; cbn [foldl length]; [lia|].
  pose proof (IH (Tools.add_name d acc e)).
  pose proof (size_add_name d acc e). lia.
Qed.

(** X19: when the quick subdomain tool answers with names, it has
    asked crt.sh once, for the sanitized domain of the request, and done
    nothing else.  The count is the number of names and is at most 100;
    the names are in strictly ascending code-point order, hence without
    duplicates, and in lower case; they are exactly the first lines of
    those certificate names among the first hundred rows that mention
    the domain. *)
Theorem tool_names (get : string -> string + list Entry)
  (request_domain : option string) (w w' : World)
  (d : string) (n status : nat) (names : list string) :
  Tools.subdomain_finder get request_domain w
  = ((Tools.Names d n names, status), w') ->
  status = 200
  /\ request_domain ≫= sanitize_hostname = Some d
  /\ trace w' = trace w ++ [EvHttpGet (crt_url d)]
  /\ cache_file w' = cache_file w
  /\ n = length names /\ n <= 100
  /\ Sorted (holds String.ltb) names
  /\ Forall lowercase names
  /\ exists results,
       get (crt_url d) = inr results
       /\ forall x, x ∈ names
                    <-> exists e, e ∈ take 100 results
                                  /\ Tools.names_row d x e.
Proof.
  unfold Tools.subdomain_finder.
  destruct (request_domain ≫= sanitize_hostname) as [d'|] eqn:Hd;
    [|unfold ret; intros H; discriminate H].
  unfold bind, emit, crt_url.
  destruct (get ("https://crt.sh/?q=%." +:+ d' +:+ "&output=json"))
    as [err|results] eqn:Hg; unfold ret; intros H; [discriminate H|].
  injection H as <- <- <- <- <-.
  rewrite Hg. cbn [trace cache_file].
  set (acc := foldl (Tools.add_name d') ∅ (take 100 results)).
  assert (Hp : sort_by String.leb (elements acc) ≡ₚ elements acc)
    by apply sort_by_Permutation.
  split; [reflexivity|]. split; [reflexivity|]. split; [reflexivity|].
  split; [reflexivity|].
  split; [rewrite Hp; reflexivity|].
  split.
  { pose proof (size_add_names d' (take 100 results) ∅) as Hs.
    rewrite size_empty, length_take in Hs. fold acc in Hs. lia. }
  split.
  { apply (Sorted_strict (holds String.leb)).
    - intros x y. apply leb_ltb.
    - apply (sort_by_Sorted String.leb String.leb_total).
    - rewrite Hp. apply NoDup_elements. }
  split.
  { apply Forall_forall. intros x Hx. rewrite Hp in Hx.
    apply elem_of_elements, add_names_elem in Hx as [Hx|(e & _ & _ & _ & ->)].
    - apply elem_of_empty in Hx as [].
    - apply lower_idem. }
  exists results. split; [reflexivity|]. intros x.
  rewrite Hp, elem_of_elements. unfold acc. rewrite add_names_elem.
  split; [intros [H|H]; [apply elem_of_empty in H as []|exact H] | auto].
Qed.

Lemma tool_names_witness :
  Sorted (holds String.ltb)
    ["api.example.com"; "www.example.com"].
Proof.
  exact (proj1 (proj2 (proj2 (proj2 (proj2 (proj2 (proj2
    (tool_names (fun _ => inr tool_rows) (Some " Example.COM ")
       Demo.fresh_world
       {| cache_file := cache_file Demo.fresh_world;
          clock_reads := clock_reads Demo.fresh_world;
          trace := trace Demo.fresh_world
                   ++ [EvHttpGet (crt_url "example.com")] |}
       "example.com" 2 200 ["api.example.com"; "www.example.com"]
       ltac:(vm_compute; reflexivity))))))))).
Defined.
